(** * Sakura AI: context retrieval, memory ranking and signal extraction

    A shallow embedding of the chat controller's memory engine
    ([retrieveUserContext], [updateUserContext], [updateGlobalContext],
    [detectMood], [extractPreferences], [extractEntities],
    [extractTopics]) and the properties of it that the design document
    states.

    Conventions of the embedding.
    - A JavaScript string is a [string]: one [ascii] per UTF-16 code unit,
      so the texts covered are those whose code units are below 256.
      Literals of the source that hold larger code units (the emoji
      tables) are kept as lists of code units.
    - A JavaScript number that the code computes with ([score] in
      [detectMood]) is a binary64 [float]; a [Date] is its millisecond
      count, a [Z].
    - The document store is explicit state; a store call that can throw
      returns an [Outcome]. *)

From Stdlib Require Import String Ascii List ZArith NArith QArith Lia Floats.
From Stdlib Require Import Sorting.Sorted Sorting.Permutation DecimalString.
From stdpp Require Import gmap strings.

Set Warnings "-inexact-float".
Close Scope Q_scope.
Local Open Scope list_scope.

(** ** JavaScript strings *)

Module Js.

(** The code unit of a character. *)
Definition unit (c : ascii) : N := N_of_ascii c.

Definition units (s : string) : list N := map unit (list_ascii_of_string s).

Definition between (lo hi n : N) : bool := ((lo <=? n) && (n <=? hi))%N.

(** [\w] of a regular expression without the [u] flag. *)
Definition isWordChar (c : ascii) : bool :=
  let n := unit c in
  between 97 122 n || between 65 90 n || between 48 57 n || (n =? 95)%N.

(** [\s], which is also what [trim] strips: tab, line feed, vertical tab,
    form feed, carriage return, space and no-break space. *)
Definition isSpace (c : ascii) : bool :=
  let n := unit c in
  between 9 13 n || (n =? 32)%N || (n =? 160)%N.

(** What [.] refuses: the line terminators. *)
Definition isLineTerminator (c : ascii) : bool :=
  let n := unit c in (n =? 10)%N || (n =? 13)%N.

(** A character that has a distinct lower-case form: [A-Z] and the
    Latin-1 capitals (0xC0-0xDE but the multiplication sign). *)
Definition hasLower (c : ascii) : bool :=
  let n := unit c in
  between 65 90 n || (between 192 222 n && negb (n =? 215)%N).

Definition lowerChar (c : ascii) : ascii :=
  if hasLower c then ascii_of_N (unit c + 32) else c.

(** [s.toLowerCase()] *)
Fixpoint toLowerCase (s : string) : string :=
  match s with
  | EmptyString => EmptyString
  | String c s' => String (lowerChar c) (toLowerCase s')
  end.

(** [c.toUpperCase() === c]: false exactly for the characters that have a
    distinct upper-case form ([a-z], 0xE0-0xFE but the division sign, and
    the micro sign, sharp s and y-diaeresis, whose upper-case forms lie
    outside this range). *)
Definition upperFixes (c : ascii) : bool :=
  let n := unit c in
  negb (between 97 122 n
        || (between 223 255 n && negb (n =? 247)%N)
        || (n =? 181)%N).

(** [c.toLowerCase() !== c] *)
Definition lowerMoves (c : ascii) : bool := hasLower c.

(** [s.includes(sub)] *)
Fixpoint includes (s sub : string) : bool :=
  String.prefix sub s ||
  match s with
  | EmptyString => false
  | String _ s' => includes s' sub
  end.

Fixpoint unitsPrefix (p l : list N) : bool :=
  match p, l with
  | [], _ => true
  | _ :: _, [] => false
  | a :: p', b :: l' => (a =? b)%N && unitsPrefix p' l'
  end.

(** [s.includes(e)] for a literal [e] given by its code units. *)
Fixpoint includesUnits (l e : list N) : bool :=
  unitsPrefix e l ||
  match l with
  | [] => false
  | _ :: l' => includesUnits l' e
  end.

Fixpoint trimStart (s : string) : string :=
  match s with
  | EmptyString => EmptyString
  | String c s' => if isSpace c then trimStart s' else s
  end.

Fixpoint trimEnd (s : string) : string :=
  match s with
  | EmptyString => EmptyString
  | String c s' =>
      match trimEnd s' with
      | EmptyString => if isSpace c then EmptyString else String c EmptyString
      | r => String c r
      end
  end.

(** [s.trim()] *)
Definition trim (s : string) : string := trimEnd (trimStart s).

(** [arr.includes(x)] on an array of strings. *)
Definition arrIncludes (arr : list string) (x : string) : bool :=
  existsb (String.eqb x) arr.

(** [[...new Set(arr)]]: the first occurrence of each element, in order. *)
Fixpoint uniq (seen arr : list string) : list string :=
  match arr with
  | [] => []
  | x :: arr' =>
      if arrIncludes seen x then uniq seen arr'
      else x :: uniq (x :: seen) arr'
  end.

(** [arr.slice(-n)] *)
Definition sliceLast {A} (n : nat) (arr : list A) : list A :=
  drop (length arr - n) arr.

End Js.

(** ** Signal extraction: mood *)

Module Mood.

Record Category := {
  mood : string;
  keywords : list string;
  emojis : list (list N);
  score : float
}.

(** [moodKeywords], in the order its keys are written. *)
Definition moodKeywords : list Category :=
  [ {| mood := "affectionate";
       keywords := ["love"; "miss"; "adore"; "care"; "xoxo"; "heart";
                    "darling"; "babe"; "honey"];
       emojis := [[240; 376; 732]; [240; 376; 732; 732]; [226; 164; 239; 184];
                  [240; 376; 8217; 8226]; [240; 376; 8217; 8211];
                  [240; 376; 8217; 8220]; [240; 376; 8217; 8212];
                  [240; 376; 8217; 382]; [240; 376; 8217; 732]]%N;
       score := 0 |};
    {| mood := "happy";
       keywords := ["happy"; "glad"; "excited"; "yay"; "woohoo"; "joy";
                    "delighted"; "wonderful"; "amazing"];
       emojis := [[240; 376; 732; 352]; [240; 376; 732; 402];
                  [240; 376; 732; 8222]; [240; 376; 732];
                  [240; 376; 8482; 8218]; [240; 376; 732; 8364];
                  [240; 376; 732; 184]; [240; 376; 732; 186];
                  [240; 376; 165; 179]]%N;
       score := 0 |};
    {| mood := "sad";
       keywords := ["sad"; "upset"; "tired"; "exhausted"; "depressed";
                    "unhappy"; "miss"; "lonely"; "down"];
       emojis := [[240; 376; 732; 8221]; [240; 376; 732; 162];
                  [240; 376; 732; 173]; [240; 376; 732; 165];
                  [240; 376; 732; 191]; [240; 376; 732; 8220];
                  [240; 376; 165; 186]; [240; 376; 732; 382];
                  [240; 376; 732; 376]]%N;
       score := 0 |};
    {| mood := "upset";
       keywords := ["angry"; "annoyed"; "frustrated"; "mad"; "furious";
                    "irritated"; "hate"; "rage"; "fed up"];
       emojis := [[240; 376; 732; 160]; [240; 376; 732; 161];
                  [240; 376; 164; 172]; [240; 376; 732; 164];
                  [240; 376; 732; 8217]; [240; 376; 732; 8216];
                  [240; 376; 732; 190]; [240; 376; 8217; 162];
                  [240; 376; 8216; 191]]%N;
       score := 0 |};
    {| mood := "bored";
       keywords := ["bored"; "whatever"; "meh"; "dull"; "uninterested";
                    "tedious"; "mundane"; "bland"];
       emojis := [[240; 376; 732; 8217]; [240; 376; 8482; 8222];
                  [240; 376; 732]; [240; 376; 732; 8216];
                  [240; 376; 732; 180]; [240; 376; 8217; 164];
                  [240; 376; 165; 177]; [240; 376; 732; 170]]%N;
       score := 0 |};
    {| mood := "flirty";
       keywords := ["flirt"; "sexy"; "hot"; "cute"; "beautiful"; "handsome";
                    "attractive"; "kiss"; "hug"];
       emojis := [[240; 376; 732]; [240; 376; 732; 8240];
                  [240; 376; 8221; 165]; [240; 376; 8217; 8249];
                  [240; 376; 732; 710]; [240; 376; 8216; 8364];
                  [240; 376; 164; 164]; [240; 376; 8217; 166];
                  [240; 376; 8216; 8230]]%N;
       score := 0 |};
    {| mood := "neutral";
       keywords := [];
       emojis := [];
       score := 0.2 |} ].

(** The two inner loops over one category: [data.score += 0.2] for each
    keyword found in the lower-cased message, then [data.score += 0.3]
    for each emoji found in the message as written. *)
Definition scoreCategory (lowerMsg message : string) (data : Category) : Category :=
  let s1 :=
    fold_left (fun (s : float) keyword =>
                 if Js.includes lowerMsg keyword then (s + 0.2)%float else s)
              (keywords data) (score data) in
  let s2 :=
    fold_left (fun (s : float) emoji =>
                 if Js.includesUnits (Js.units message) emoji
                 then (s + 0.3)%float else s)
              (emojis data) s1 in
  {| mood := mood data; keywords := keywords data;
     emojis := emojis data; score := s2 |}.

(** The second loop: the first category whose score is strictly above
    the running maximum replaces it. *)
Definition pickHighest (scored : list Category) : string :=
  snd (fold_left (fun (acc : float * string) data =>
                    if (fst acc <? score data)%float
                    then (score data, mood data) else acc)
                 scored (0%float, "neutral")).

Definition detectMood (message : string) : string :=
  let lowerMsg := Js.toLowerCase message in
  pickHighest (map (scoreCategory lowerMsg message) moodKeywords).

End Mood.

(** ** Regular expressions of the extraction patterns

    The three preference patterns are sequences of four kinds of piece.
    [matchHere] is the backtracking matcher of the regular-expression
    engine on such a sequence: alternatives are tried from left to right
    and a lazy quantifier from its lower bound upwards, the first way
    that lets the rest of the pattern match wins. *)

Module Re.

Inductive Piece :=
| Lit (s : string)            (* a run of literal characters *)
| OneOf (alts : list string)  (* (?:a|b|...) with literal alternatives *)
| LazyDots (lo hi : nat)      (* the capturing group (.{lo,hi}?) *)
| Stop.                       (* (?:\.|\!|\,|\s|$) *)

Fixpoint dropPrefix (p s : string) : option string :=
  match p, s with
  | EmptyString, _ => Some s
  | String _ _, EmptyString => None
  | String a p', String b s' =>
      if Ascii.eqb a b then dropPrefix p' s' else None
  end.

(** Exactly [n] characters matched by [.]. *)
Fixpoint takeDots (n : nat) (s : string) : option (string * string) :=
  match n with
  | O => Some (EmptyString, s)
  | S n' =>
      match s with
      | EmptyString => None
      | String c s' =>
          if Js.isLineTerminator c then None
          else match takeDots n' s' with
               | Some (cap, r) => Some (String c cap, r)
               | None => None
               end
      end
  end.

(** A match: the captured groups in order and the number of characters
    the match spans. *)
Definition Match : Type := list string * nat.

Definition spanning (n : nat) (m : option Match) : option Match :=
  match m with
  | Some (caps, k) => Some (caps, n + k)
  | None => None
  end.

(** The lazy part of [.{lo,hi}?], after the [lo] compulsory characters:
    try the rest of the pattern, and only when it fails take one more
    character, at most [extra] times. *)
Fixpoint lazyMore (k : string -> option Match) (extra : nat)
    (cap : string) (s : string) : option Match :=
  match k s with
  | Some (caps, n) => Some (cap :: caps, String.length cap + n)
  | None =>
      match extra, s with
      | S e, String c s' =>
          if Js.isLineTerminator c then None
          else lazyMore k e (cap +:+ String c EmptyString) s'
      | _, _ => None
      end
  end.

Fixpoint firstAlt (k : string -> option Match) (alts : list string)
    (s : string) : option Match :=
  match alts with
  | [] => None
  | a :: alts' =>
      match dropPrefix a s with
      | Some r =>
          match k r with
          | Some (caps, n) => Some (caps, String.length a + n)
          | None => firstAlt k alts' s
          end
      | None => firstAlt k alts' s
      end
  end.

Definition isStopChar (c : ascii) : bool :=
  Ascii.eqb c "." || Ascii.eqb c "!" || Ascii.eqb c "," || Js.isSpace c.

Fixpoint matchHere (ps : list Piece) (s : string) : option Match :=
  match ps with
  | [] => Some ([], 0)
  | Lit l :: ps' =>
      match dropPrefix l s with
      | Some r => spanning (String.length l) (matchHere ps' r)
      | None => None
      end
  | OneOf alts :: ps' => firstAlt (matchHere ps') alts s
  | LazyDots lo hi :: ps' =>
      match takeDots lo s with
      | Some (cap, r) => lazyMore (matchHere ps') (hi - lo) cap r
      | None => None
      end
  | Stop :: ps' =>
      match s with
      | String c r =>
          if isStopChar c then spanning 1 (matchHere ps' r) else None
      | EmptyString => matchHere ps' EmptyString
      end
  end.

(** The loop [while ((match = pattern.exec(text)) !== null)] of a
    pattern with the [g] flag: [exec] finds the leftmost match at or
    after [lastIndex] and moves [lastIndex] behind it.  [skip] is the
    distance from the current position to [lastIndex]; the result lists
    the captures of the successive matches.  A match that spans no
    character would keep the source in the loop for ever; the scan stops
    there (see [matchHere_spans] for the patterns in use). *)
Fixpoint execAll (ps : list Piece) (skip : nat) (s : string) {struct s}
    : list (list string) :=
  match skip with
  | S k =>
      match s with
      | EmptyString => []
      | String _ s' => execAll ps k s'
      end
  | O =>
      match matchHere ps s with
      | Some (caps, n) =>
          caps :: match n, s with
                  | S k, String _ s' => execAll ps k s'
                  | _, _ => []
                  end
      | None =>
          match s with
          | EmptyString => []
          | String _ s' => execAll ps 0 s'
          end
      end
  end.

(** [new RegExp('\\b' + keyword + '\\b', 'i').test(text)] for a keyword
    made of word characters, on a text that is already lower-cased:
    the keyword occurs with no word character on either side.
    [before] tells whether the character before [s] is a word
    character. *)
Fixpoint wholeWord (keyword : string) (before : bool) (s : string) : bool :=
  (negb before &&
   match dropPrefix keyword s with
   | Some (String c _) => negb (Js.isWordChar c)
   | Some EmptyString => true
   | None => false
   end) ||
  match s with
  | EmptyString => false
  | String c s' => wholeWord keyword (Js.isWordChar c) s'
  end.

(** [text.match(/@(\w+)/)], the captured group: the word characters
    after the first [@] that is followed by one. *)
Fixpoint wordRun (s : string) : string :=
  match s with
  | String c s' => if Js.isWordChar c then String c (wordRun s') else EmptyString
  | EmptyString => EmptyString
  end.

Fixpoint matchMention (s : string) : option string :=
  match s with
  | EmptyString => None
  | String c s' =>
      if Ascii.eqb c "@" then
        match wordRun s' with
        | EmptyString => matchMention s'
        | w => Some w
        end
      else matchMention s'
  end.

End Re.

(** ** Signal extraction: preferences, entities, topics *)

Module Signal.

(** A JavaScript object whose values are arrays of strings: the keys in
    the order they were first written. *)
Definition Prefs : Type := list (string * list string).

Fixpoint getKey (o : Prefs) (key : string) : option (list string) :=
  match o with
  | [] => None
  | (k, v) :: o' => if String.eqb k key then Some v else getKey o' key
  end.

Fixpoint setKey (o : Prefs) (key : string) (v : list string) : Prefs :=
  match o with
  | [] => [(key, v)]
  | (k, w) :: o' =>
      if String.eqb k key then (k, v) :: o' else (k, w) :: setKey o' key v
  end.

Definition who : Re.Piece := Re.OneOf ["i"; "me"; "my"; "we"].

(** [preferencePatterns] *)
Definition preferencePatterns : list (list Re.Piece * string) :=
  [ ([who; Re.Lit " "; Re.OneOf ["like"; "love"; "enjoy"; "prefer"];
      Re.Lit " "; Re.LazyDots 3 30; Re.Stop], "likes");
    ([who; Re.Lit " ";
      Re.OneOf ["hate"; "dislike"; "don't like"; "do not like"];
      Re.Lit " "; Re.LazyDots 3 30; Re.Stop], "dislikes");
    ([Re.OneOf ["my"; "our"]; Re.Lit " favorite "; Re.LazyDots 3 30;
      Re.Lit " "; Re.OneOf ["is"; "are"]; Re.Lit " "; Re.LazyDots 3 30;
      Re.Stop], "favorites") ].

(** The body of the [while] loop for one match. *)
Definition recordMatch (type : string) (preferences : Prefs)
    (caps : list string) : Prefs :=
  let preferences :=
    match getKey preferences type with
    | Some _ => preferences
    | None => setKey preferences type []
    end in
  let preference := Js.trim (nth 0 caps EmptyString) in
  let current := default [] (getKey preferences type) in
  if negb (String.eqb preference EmptyString)
     && (2 <? String.length preference)
     && negb (Js.arrIncludes current preference)
  then setKey preferences type (current ++ [preference])
  else preferences.

Definition extractPreferences (message response : string) : Prefs :=
  let combinedText := Js.toLowerCase (message +:+ " " +:+ response) in
  fold_left (fun preferences '(pattern, type) =>
               fold_left (recordMatch type)
                         (Re.execAll pattern 0 combinedText) preferences)
            preferencePatterns [].

(** Modelled from the spec: the word tokenizer of the [natural] package,
    which is not among the sources ("tokenize on word boundaries").  It
    splits the text at every run of characters that are not letters,
    digits or underscores and drops the empty pieces.  [word] is the
    piece being read. *)
Fixpoint tokenizeFrom (word : string) (s : string) : list string :=
  match s with
  | EmptyString =>
      match word with EmptyString => [] | _ => [word] end
  | String c s' =>
      if Js.isWordChar c then tokenizeFrom (word +:+ String c EmptyString) s'
      else match word with
           | EmptyString => tokenizeFrom EmptyString s'
           | _ => word :: tokenizeFrom EmptyString s'
           end
  end.

Definition tokenize (text : string) : list string := tokenizeFrom EmptyString text.

Definition commonCapitalized : list string :=
  ["I"; "A"; "The"; "An"; "And"; "But"; "Or"; "For"; "Nor"; "As"; "At";
   "By"; "For"; "From"; "In"; "Into"; "Near"; "Of"; "On"; "To"; "With"].

Definition isPotentialEntity (word : string) : bool :=
  (3 <? String.length word) &&
  match word with
  | String c _ => Js.upperFixes c && Js.lowerMoves c
  | EmptyString => false
  end &&
  negb (Js.arrIncludes commonCapitalized word).

Definition extractEntities (text : string) : list string :=
  let words := tokenize text in
  let potentialEntities := filter isPotentialEntity words in
  Js.uniq [] potentialEntities.

(** [topicKeywords], in the order its keys are written. *)
Definition topicKeywords : list (string * list string) :=
  [ ("relationships", ["love"; "boyfriend"; "girlfriend"; "dating";
                       "relationship"; "crush"; "married"; "wedding"]);
    ("work", ["job"; "work"; "boss"; "office"; "career"; "promotion";
              "meeting"; "salary"; "interview"]);
    ("school", ["school"; "class"; "homework"; "study"; "exam"; "teacher";
                "professor"; "assignment"; "college"]);
    ("entertainment", ["movie"; "game"; "music"; "show"; "book"; "concert";
                       "series"; "tv"; "anime"; "stream"]);
    ("feelings", ["feel"; "happy"; "sad"; "angry"; "excited"; "anxious";
                  "nervous"; "proud"; "joy"; "afraid"]);
    ("health", ["sick"; "health"; "doctor"; "exercise"; "gym"; "workout";
                "diet"; "pain"; "sleep"; "tired"]);
    ("technology", ["phone"; "computer"; "laptop"; "app"; "software";
                    "tech"; "device"; "internet"; "wifi"; "online"]);
    ("food", ["food"; "eat"; "restaurant"; "meal"; "cook"; "dinner";
              "lunch"; "breakfast"; "recipe"; "snack"]);
    ("travel", ["travel"; "trip"; "vacation"; "flight"; "hotel"; "journey";
                "visit"; "abroad"; "country"; "city"]) ].

Definition extractTopics (text : string) : list string :=
  match text with
  | EmptyString => []
  | _ =>
      let lowerText := Js.toLowerCase text in
      flat_map
        (fun '(topic, keywords) =>
           let matchCount :=
             fold_left (fun count keyword =>
                          count + (if Re.wholeWord keyword false lowerText
                                   then 1 else 0))
                       keywords 0 in
           if (2 <=? matchCount)
              || ((matchCount =? 1) && (String.length text <? 100))
           then [topic] else [])
        topicKeywords
  end.

End Signal.

(** ** The stored documents and the store *)

Module Store.

(** An element of [conversationHistory].  A field that a stored turn may
    lack is an [option]. *)
Record Turn := {
  message : option string;
  response : option string;
  timestamp : option Z;
  entities : list string
}.

Record UserContext := {
  userId : string;
  username : option string;
  conversationHistory : list Turn;
  mood : option string;
  preferences : option Signal.Prefs;
  contextTokens : list string;
  lastActive : option Z;
  lastBotResponse : option string
}.

Record GlobalContext := {
  botPersonality : option string;
  recentGlobalTopics : list string;
  lastUpdate : option Z
}.

Record Db := {
  users : gmap string UserContext;
  globalContext : option GlobalContext
}.

(** What a call that can throw comes back with. *)
Inductive Outcome (A : Type) :=
| Returned (a : A)
| Raised (error : string).
Arguments Returned {A} a.
Arguments Raised {A} error.

(** Which of the store calls of a request fail. *)
Record Faults := {
  findUserFails : bool;
  findGlobalFails : bool;
  upsertUserFails : bool;
  trimUserFails : bool;
  upsertGlobalFails : bool
}.

Definition noFaults : Faults :=
  {| findUserFails := false; findGlobalFails := false;
     upsertUserFails := false; trimUserFails := false;
     upsertGlobalFails := false |}.

(** [UserContext.findOne({ userId }).lean()] *)
Definition findUser (flt : Faults) (db : Db) (uid : string)
    : Outcome (option UserContext) :=
  if findUserFails flt then Raised "UserContext.findOne"
  else Returned (users db !! uid).

(** [GlobalContext.findOne({}).lean()] *)
Definition findGlobal (flt : Faults) (db : Db) : Outcome (option GlobalContext) :=
  if findGlobalFails flt then Raised "GlobalContext.findOne"
  else Returned (globalContext db).

(** The document an upsert starts from when none is stored. *)
Definition newUser (uid : string) : UserContext :=
  {| userId := uid; username := None; conversationHistory := [];
     mood := None; preferences := None; contextTokens := [];
     lastActive := None; lastBotResponse := None |}.

Definition newGlobal : GlobalContext :=
  {| botPersonality := None; recentGlobalTopics := []; lastUpdate := None |}.

(** [$addToSet: { $each: xs }] *)
Definition addToSet (set xs : list string) : list string :=
  fold_left (fun acc x => if Js.arrIncludes acc x then acc else acc ++ [x]) xs set.

(** [x || d] for a string that may be absent: the empty string is falsy. *)
Definition orString (x : option string) (d : string) : string :=
  match x with
  | Some EmptyString | None => d
  | Some s => s
  end.

End Store.

(** ** Retrieval: the history merger and [retrieveUserContext] *)

Module Retrieval.
Import Store.

(** The text that stands for a turn's time in its identifier: a [Date]
    prints to the second, [Date.now()] prints as its millisecond count. *)
Inductive Stamp :=
| DateText (seconds : Z)
| NowText (millis : Z).

(** [`${conv.message || ''}-${conv.timestamp || Date.now()}`], kept as
    its two parts: the texts on either side of the dash.  Two identifiers
    are the same string exactly when both parts agree. *)
Definition ConvId : Type := string * Stamp.

Definition convId (now : Z) (conv : Turn) : ConvId :=
  (orString (message conv) "",
   match timestamp conv with
   | Some t => DateText (t / 1000)
   | None => NowText now
   end).

Definition stampEqb (a b : Stamp) : bool :=
  match a, b with
  | DateText x, DateText y => (x =? y)%Z
  | NowText x, NowText y => (x =? y)%Z
  | _, _ => false
  end.

Definition convIdEqb (a b : ConvId) : bool :=
  String.eqb (fst a) (fst b) && stampEqb (snd a) (snd b).

(** [includedConversations.has(id)] *)
Definition has (included : list ConvId) (id : ConvId) : bool :=
  existsb (convIdEqb id) included.

(** [arr.sort(cmp)]: the sort is stable; [after a b] tells [cmp(a, b) > 0]. *)
Fixpoint insertSorted {A} (after : A -> A -> bool) (x : A) (l : list A) : list A :=
  match l with
  | [] => [x]
  | y :: l' => if after x y then y :: insertSorted after x l' else x :: l
  end.

Fixpoint sort {A} (after : A -> A -> bool) (l : list A) : list A :=
  match l with
  | [] => []
  | x :: l' => insertSorted after x (sort after l')
  end.

(** An entry of [similarityScores]. *)
Record Scored := {
  index : nat;
  conversation : Turn;
  score : Q
}.

(** [(a, b) => b.score - a.score] is positive when [a] scores less. *)
Definition lowerScore (a b : Scored) : bool := negb (Qle_bool (score b) (score a)).

(** [new Date(a.timestamp || 0)] as a number. *)
Definition sortKey (conv : Turn) : Z := default 0%Z (timestamp conv).

(** [(a, b) => new Date(a.timestamp || 0) - new Date(b.timestamp || 0)]
    is positive when [a] is later. *)
Definition later (a b : Turn) : bool := (sortKey b <? sortKey a)%Z.

(** The state of the loop over [topRelevantByScore]: the array
    [recentHistory] it pushes to, the set of identifiers, and the number
    of identifiers made so far. *)
Record Merging := {
  recentHistory : list Turn;
  includedConversations : list ConvId;
  made : nat
}.

Section Merger.

(** The measure that the [natural] package's [TfIdf] reports for document
    [i] of the corpus built from the message (document 0) and the turns
    of the history (documents 1 to n), each run through [preprocessText]. *)
Variable measure : string -> list Turn -> nat -> Q.

(** The value that the k-th evaluation of [conv.timestamp || Date.now()]
    reads from the clock when the timestamp is missing. *)
Variable now : nat -> Z.

Definition similarityScores (message : string) (history : list Turn) : list Scored :=
  imap (fun idx conv =>
          {| index := idx; conversation := conv;
             score := measure message history (S idx) |})
       history.

Definition topRelevantByScore (message : string) (history : list Turn) : list Turn :=
  map conversation (take 8 (sort lowerScore (similarityScores message history))).

(** The first [forEach]: the identifiers of the recent turns. *)
Definition includeRecent (recent : list Turn) : Merging :=
  {| recentHistory := recent;
     includedConversations := imap (fun k conv => convId (now k) conv) recent;
     made := length recent |}.

(** The body of the second [forEach]. *)
Definition addRelevant (m : Merging) (conv : Turn) : Merging :=
  let id := convId (now (made m)) conv in
  if has (includedConversations m) id
  then {| recentHistory := recentHistory m;
          includedConversations := includedConversations m;
          made := S (made m) |}
  else {| recentHistory := recentHistory m ++ [conv];
          includedConversations := includedConversations m ++ [id];
          made := S (made m) |}.

(** The merger: the array [recentHistory] as the loops leave it, and
    [relevantHistory]. *)
Definition mergeHistory (message : string) (history : list Turn)
    : list Turn * list Turn :=
  let recent := Js.sliceLast 5 history in
  match history with
  | [] => (recent, [])
  | _ =>
      let merged :=
        fold_left addRelevant (topRelevantByScore message history)
                  (includeRecent recent) in
      (recentHistory merged, take 10 (sort later (recentHistory merged)))
  end.

End Merger.

Record UserInfo := {
  infoUserId : string;
  infoUsername : option string;
  infoMood : string;
  infoPreferences : option Signal.Prefs;
  infoLastActive : option Z;
  infoContextTokens : option (list string)
}.

(** The object [retrieveUserContext] returns.  A key that a return
    statement does not write, or writes as [null], is [None]. *)
Record RetrievalResult := {
  userInfo : UserInfo;
  relevantHistory : list Turn;
  resultRecentHistory : list Turn;
  resultBotPersonality : option string;
  globalPersonality : option string;
  globalTopics : option (list string);
  previousBotMessage : option string
}.

Definition bareInfo (uid : string) : UserInfo :=
  {| infoUserId := uid; infoUsername := None; infoMood := "neutral";
     infoPreferences := None; infoLastActive := None;
     infoContextTokens := None |}.

(** The object returned when no profile is stored. *)
Definition newProfileResult (uid : string) : RetrievalResult :=
  {| userInfo := bareInfo uid; relevantHistory := [];
     resultRecentHistory := []; resultBotPersonality := None;
     globalPersonality := None; globalTopics := None;
     previousBotMessage := None |}.

(** The object returned from the [catch] block. *)
Definition minimalResult (uid : string) : RetrievalResult :=
  {| userInfo := bareInfo uid; relevantHistory := [];
     resultRecentHistory := [];
     resultBotPersonality := Some "friendly and helpful";
     globalPersonality := None; globalTopics := None;
     previousBotMessage := None |}.

Definition defaultPersonality : string :=
  "toxic, sassy, and slightly unhinged girlfriend AI".

Section Retrieve.

Variable measure : string -> list Turn -> nat -> Q.
Variable now : nat -> Z.
(** What [new Date()] gives for a profile without [lastActive]. *)
Variable today : Z.

(** The statements after the profile was found. *)
Definition assemble (uid message : string) (userContext : UserContext)
    (global : option GlobalContext) : RetrievalResult :=
  let personality :=
    orString (g ← global; botPersonality g) defaultPersonality in
  let topics := default [] (recentGlobalTopics <$> global) in
  let history := conversationHistory userContext in
  let previous := g ← last history; response g in
  let '(recent, relevant) := mergeHistory measure now message history in
  let name :=
    match username userContext with
    | Some (String c n) => Some (String c n)
    | _ => if Js.includes message "@" then Re.matchMention message else None
    end in
  {| userInfo :=
       {| infoUserId := uid;
          infoUsername := Some (orString name "User");
          infoMood := orString (mood userContext) "neutral";
          infoPreferences := Some (default [] (preferences userContext));
          infoLastActive := Some (default today (lastActive userContext));
          infoContextTokens := Some (contextTokens userContext) |};
     relevantHistory := relevant;
     resultRecentHistory := recent;
     resultBotPersonality := Some personality;
     globalPersonality := None;
     globalTopics := Some (Js.sliceLast 5 topics);
     previousBotMessage := previous |}.

(** The [try] block. *)
Definition retrieveBody (flt : Faults) (db : Db) (uid message : string)
    : Outcome RetrievalResult :=
  match findUser flt db uid with
  | Raised e => Raised e
  | Returned None => Returned (newProfileResult uid)
  | Returned (Some userContext) =>
      match findGlobal flt db with
      | Raised e => Raised e
      | Returned global => Returned (assemble uid message userContext global)
      end
  end.

Definition retrieveUserContext (flt : Faults) (db : Db) (uid message : string)
    : Outcome RetrievalResult :=
  match retrieveBody flt db uid message with
  | Returned r => Returned r
  | Raised _ => Returned (minimalResult uid)
  end.

End Retrieve.

End Retrieval.

(** ** Updates: [updateUserContext] and [updateGlobalContext] *)

Module Update.
Import Store.

(** The history that the trimming write stores. *)
Definition trimmed (history : list Turn) : list Turn :=
  let keepFirst := take 5 history in
  let keepLast := Js.sliceLast 45 history in
  keepFirst ++ keepLast.

(** The update document applied to the stored profile, or to a new one
    ([upsert: true]); [clock 0] and [clock 1] are the two readings of
    [new Date()]. *)
Definition applyUpdate (clock : nat -> Z) (name message response : string)
    (doc : UserContext) : UserContext :=
  let extractedEntities := Signal.extractEntities message in
  let extractedPreferences := Signal.extractPreferences message response in
  {| userId := userId doc;
     username := Some name;
     conversationHistory :=
       conversationHistory doc ++
       [ {| message := Some message; response := Some response;
            timestamp := Some (clock 1); entities := extractedEntities |} ];
     mood := Some (Mood.detectMood message);
     preferences :=
       if 0 <? length extractedPreferences
       then Some extractedPreferences else preferences doc;
     contextTokens :=
       if 0 <? length extractedEntities
       then addToSet (contextTokens doc) extractedEntities
       else contextTokens doc;
     lastActive := Some (clock 0);
     lastBotResponse := Some response |}.

Definition withHistory (doc : UserContext) (history : list Turn) : UserContext :=
  {| userId := userId doc; username := username doc;
     conversationHistory := history; mood := mood doc;
     preferences := preferences doc; contextTokens := contextTokens doc;
     lastActive := lastActive doc; lastBotResponse := lastBotResponse doc |}.

Definition putUser (db : Db) (uid : string) (doc : UserContext) : Db :=
  {| users := <[uid := doc]> (users db); globalContext := globalContext db |}.

(** [updateUserContext]: the value returned or the error rethrown, and
    the store afterwards. *)
Definition updateUserContext (flt : Faults) (clock : nat -> Z) (db : Db)
    (uid name message response : string) : Outcome UserContext * Db :=
  if upsertUserFails flt then (Raised "UserContext.findOneAndUpdate", db)
  else
    let updatedUser :=
      applyUpdate clock name message response
                  (default (newUser uid) (users db !! uid)) in
    let db1 := putUser db uid updatedUser in
    if 50 <? length (conversationHistory updatedUser) then
      if trimUserFails flt then (Raised "UserContext.updateOne", db1)
      else
        (Returned updatedUser,
         putUser db1 uid
                 (withHistory updatedUser (trimmed (conversationHistory updatedUser))))
    else (Returned updatedUser, db1).

(** [$push: { recentGlobalTopics: { $each: allTopics, $slice: -25 } }] *)
Definition pushTopics (window allTopics : list string) : list string :=
  Js.sliceLast 25 (window ++ allTopics).

(** [updateGlobalContext]: nothing is returned and nothing is thrown;
    the store afterwards. *)
Definition updateGlobalContext (flt : Faults) (now : Z) (db : Db)
    (message response : string) : Db :=
  let messageTopics := Signal.extractTopics message in
  let responseTopics := Signal.extractTopics response in
  let allTopics := Js.uniq [] (messageTopics ++ responseTopics) in
  if upsertGlobalFails flt then db
  else
    let doc := default newGlobal (globalContext db) in
    {| users := users db;
       globalContext :=
         Some {| botPersonality := botPersonality doc;
                 recentGlobalTopics := pushTopics (recentGlobalTopics doc) allTopics;
                 lastUpdate := Some now |} |}.

(** The topic window of a store; empty while the singleton is absent. *)
Definition topicWindow (db : Db) : list string :=
  default [] (recentGlobalTopics <$> globalContext db).

End Update.

(** ** Concrete stores and histories *)

Module Scenario.
Import Store Retrieval.

(** The i-th turn of a conversation whose turns are one minute apart. *)
Definition numbered (i : nat) : Turn :=
  {| message := Some ("turn " +:+ NilEmpty.string_of_uint (Nat.to_uint i));
     response := Some "ok";
     timestamp := Some (60000 * Z.of_nat (S i))%Z;
     entities := [] |}.

Definition history (n : nat) : list Turn := map numbered (seq 0 n).

(** The measures of a message that shares no term with any stored turn
    (the empty message is one): every document scores 0. *)
Definition noCommonTerm : string -> list Turn -> nat -> Q := fun _ _ _ => 0%Q.

(** A clock that advances by a millisecond at every reading, well after
    the stored turns. *)
Definition clock (k : nat) : Z := (6000000 + Z.of_nat k)%Z.

(** A clock that reads the same instant throughout the request. *)
Definition steady (k : nat) : Z := 6000000%Z.

Definition profile (uid : string) (h : list Turn) : UserContext :=
  {| userId := uid; username := Some "mika"; conversationHistory := h;
     mood := Some "happy";
     preferences := Some [("likes", ["pizza"]); ("dislikes", ["rain"])];
     contextTokens := []; lastActive := Some 5000000%Z;
     lastBotResponse := None |}.

Definition emptyDb : Db := {| users := ∅; globalContext := None |}.

Definition dbWith (uid : string) (h : list Turn) : Db :=
  {| users := {[ uid := profile uid h ]}; globalContext := None |}.

(** The same turn stored twice. *)
Definition twins : list Turn := [numbered 0; numbered 0].

(** A dated turn followed by one without a timestamp. *)
Definition undated : Turn :=
  {| message := Some "no date"; response := Some "ok";
     timestamp := None; entities := [] |}.

Definition datedThenUndated : list Turn := [numbered 0; undated].

Definition fullWindow : list string :=
  map (fun i => "topic " +:+ NilEmpty.string_of_uint (Nat.to_uint i)) (seq 0 25).

Definition dbTopics (w : list string) : Db :=
  {| users := ∅;
     globalContext :=
       Some {| botPersonality := None; recentGlobalTopics := w;
               lastUpdate := None |} |}.

(** The turn that [updateUserContext] appends for the message "hello"
    answered by "hi". *)
Definition fiftyFirst : Turn :=
  {| message := Some "hello"; response := Some "hi";
     timestamp := Some (clock 1); entities := [] |}.

Definition history51 : list Turn := history 50 ++ [fiftyFirst].

(** The stored history of a user. *)
Definition storedHistory (db : Db) (uid : string) : option (list Turn) :=
  conversationHistory <$> users db !! uid.

Definition storedPreferences (db : Db) (uid : string) : option Signal.Prefs :=
  d ← users db !! uid; preferences d.

(** A profile of fifty turns receives its fifty-first. *)
Definition afterFiftyFirst : Outcome UserContext * Db :=
  Update.updateUserContext noFaults clock (dbWith "u" (history 50))
                           "u" "mika" "hello" "hi".

(** A profile with two categories of preferences receives a turn that
    speaks of one. *)
Definition afterTea : Outcome UserContext * Db :=
  Update.updateUserContext noFaults clock (dbWith "u" (history 2))
                           "u" "mika" "i love tea" "noted".

(** The same profile receives a turn whose only match captures "it ",
    a phrase too short to keep once trimmed. *)
Definition afterLoveIt : Outcome UserContext * Db :=
  Update.updateUserContext noFaults clock (dbWith "u" (history 2))
                           "u" "mika" "I love it  so much" "ok".

(** A full topic window receives a message on three topics. *)
Definition afterThreeTopics : Db :=
  Update.updateGlobalContext noFaults (clock 0) (dbTopics fullWindow)
                             "i love my job and my school" "".

End Scenario.

(** ** What the properties speak of *)

Module Spec.
Import Store Retrieval.

(** The identity of a turn in the design document: its message and its
    timestamp. *)
Definition identity (conv : Turn) : option string * option Z :=
  (message conv, timestamp conv).

(** Ascending by timestamp, a turn without one counting as [missing]. *)
Definition chronologicalAt (missing : Z) (l : list Turn) : Prop :=
  Sorted (fun a b => (default missing (timestamp a) <= default missing (timestamp b))%Z) l.

(** The merged working set, [relevantHistory]. *)
Definition merged measure now (message : string) (history : list Turn) : list Turn :=
  snd (mergeHistory measure now message history).

(** The array [recentHistory] as it is returned. *)
Definition recentReturned measure now (message : string) (history : list Turn)
    : list Turn :=
  fst (mergeHistory measure now message history).

Definition personalityOf (o : Outcome RetrievalResult) : option string :=
  match o with
  | Returned r => resultBotPersonality r
  | Raised _ => None
  end.

(** A list of phrases as the extraction must leave it: no phrase twice,
    every phrase of 3 to 30 characters. *)
Definition wellFormedPhrases (phrases : list string) : Prop :=
  NoDup phrases /\
  Forall (fun p => 3 <= String.length p <= 30) phrases.

Definition wellFormedPrefs (o : Signal.Prefs) : Prop :=
  Forall (fun kv => wellFormedPhrases (snd kv)) o.

(** Every lazy group of the pattern captures at most [bound] characters. *)
Fixpoint groupsWithin (bound : nat) (ps : list Re.Piece) : Prop :=
  match ps with
  | [] => True
  | Re.LazyDots lo hi :: ps' => lo <= hi /\ hi <= bound /\ groupsWithin bound ps'
  | _ :: ps' => groupsWithin bound ps'
  end.

Definition capturesWithin (bound : nat) (k : string -> option Re.Match) : Prop :=
  forall s caps n, k s = Some (caps, n) ->
                   Forall (fun c => String.length c <= bound) caps.

(** What the two loops of the merger keep true of their state: the set
    holds the identifiers of the turns of the array, which all come from
    the history. *)
Definition coherent (now : nat -> Z) (history : list Turn) (m : Merging) : Prop :=
  includedConversations m = map (convId (now 0)) (recentHistory m) /\
  (forall conv, In conv (recentHistory m) -> In conv history).

Definition distinct (m : Merging) : Prop :=
  NoDup (map identity (recentHistory m)).

(** The phrases of a category in extracted preferences. *)
Definition phrasesOf (o : Signal.Prefs) (type : string) : list string :=
  default [] (Signal.getKey o type).

End Spec.

(** ** The controller's helpers: elapsed time *)

Module Controller.
Import Store.

(** The number and the unit that [getTimeDifference] prints.  The two
    dates are millisecond counts; [Math.floor(x / d)] is the floor
    division of integers. *)
Definition timeDifference (startDate endDate : Z) : Z * string :=
  let diffMs := (endDate - startDate)%Z in
  let diffSecs := (diffMs / 1000)%Z in
  if (diffSecs <? 60)%Z then (diffSecs, "seconds")
  else
    let diffMins := (diffSecs / 60)%Z in
    if (diffMins <? 60)%Z then (diffMins, "minutes")
    else
      let diffHours := (diffMins / 60)%Z in
      if (diffHours <? 24)%Z then (diffHours, "hours")
      else ((diffHours / 24)%Z, "days").

(** [`${n}`] for an integer. *)
Definition showNumber (n : Z) : string := NilZero.string_of_int (Z.to_int n).

Definition getTimeDifference (startDate endDate : Z) : string :=
  let '(n, unit) := timeDifference startDate endDate in
  showNumber n +:+ " " +:+ unit.

End Controller.

(** ** What the further properties speak of *)

Module Props.
Import Store Retrieval.



(** The context tokens of a user; none for a new user. *)
Definition tokensOf (db : Db) (uid : string) : list string :=
  contextTokens (default (newUser uid) (users db !! uid)).

(** The milliseconds in a unit of [getTimeDifference]. *)
Definition unitMillis (unit : string) : Z :=
  if String.eqb unit "seconds" then 1000
  else if String.eqb unit "minutes" then 60000
  else if String.eqb unit "hours" then 3600000
  else 86400000.

(** The names of the topics, in the order of [topicKeywords]. *)
Definition topicNames : list string := map fst Signal.topicKeywords.

(** The topics of one call of [updateGlobalContext]. *)
Definition allTopics (message response : string) : list string :=
  Js.uniq [] (Signal.extractTopics message ++ Signal.extractTopics response).

(** A score reached from 0 by [k] keywords and then [e] emojis. *)
Definition scoreOf (k e : nat) : float :=
  Nat.iter e (fun s => (s + 0.3)%float) (Nat.iter k (fun s => (s + 0.2)%float) 0%float).

(** The number of entries of a table that a test accepts. *)
Definition hits {A} (test : A -> bool) (l : list A) : nat :=
  length (List.filter test l).

(** No keyword and no emoji of the category occurs in the message. *)
Definition silent (message : string) (data : Mood.Category) : bool :=
  forallb (fun keyword => negb (Js.includes (Js.toLowerCase message) keyword))
          (Mood.keywords data)
  && forallb (fun emoji => negb (Js.includesUnits (Js.units message) emoji))
             (Mood.emojis data).

Definition nothingMatches (message : string) : bool :=
  forallb (silent message) Mood.moodKeywords.

(** A category as the table writes the six moods with keywords: score
    0, a name other than "neutral", at most nine keywords and emojis. *)
Definition keyed (data : Mood.Category) : Prop :=
  Mood.score data = 0%float /\ Mood.mood data <> "neutral" /\
  length (Mood.keywords data) <= 9 /\ length (Mood.emojis data) <= 9.

(** The running maximum once some category has matched. *)
Definition matched (acc : float * string) : Prop :=
  snd acc <> "neutral" /\
  exists k e, k <= 9 /\ e <= 9 /\ (k <> 0 \/ e <> 0) /\ fst acc = scoreOf k e.

(** One step of the second loop of [detectMood]. *)
Definition higher (acc : float * string) (data : Mood.Category) : float * string :=
  if (fst acc <? Mood.score data)%float
  then (Mood.score data, Mood.mood data) else acc.

Fixpoint allWordChars (s : string) : bool :=
  match s with
  | EmptyString => true
  | String c s' => Js.isWordChar c && allWordChars s'
  end.

(** The text begins with a capital letter A-Z. *)
Definition capitalized (s : string) : bool :=
  match s with
  | String c _ => Js.between 65 90 (Js.unit c)
  | EmptyString => false
  end.

(** What every extracted entity is: a word of at least four letters,
    digits or underscores that begins with a capital letter and is not
    one of the common capitalized words. *)
Definition entityLike (word : string) : Prop :=
  4 <= String.length word /\ capitalized word = true /\
  allWordChars word = true /\ ~ In word Signal.commonCapitalized.

Definition categoryNames : list string := ["likes"; "dislikes"; "favorites"].

(** The keys of a preferences object are category names, each once. *)
Definition categoriesOnly (o : Signal.Prefs) : Prop :=
  NoDup (map fst o) /\ forall key, In key (map fst o) -> In key categoryNames.

(** Whenever a turn of the history lacks its timestamp, the clock reads
    the same value at every reading. *)
Definition steadyFor (now : nat -> Z) (history : list Turn) : Prop :=
  forall conv, In conv history -> timestamp conv = None ->
               forall k k', now k = now k'.


(** A profile that knows two entities receives a message naming one of
    them and a new one. *)
Definition knowsAnna : Db :=
  {| users :=
       {[ "u" := {| userId := "u"; username := Some "mika";
                    conversationHistory := [];
                    mood := None; preferences := None;
                    contextTokens := ["Anna"; "Berlin"];
                    lastActive := None; lastBotResponse := None |} ]};
     globalContext := None |}.

End Props.
(** ** The Discord bot: sending a response in parts *)

Module Discord.

(** A message that reached the channel: the reply to the user's message
    ([message.reply]) or a plain message ([message.channel.send]). *)
Inductive Sent : Type :=
| Reply (text : string)
| Plain (text : string).

Definition textOf (m : Sent) : string :=
  match m with Reply text | Plain text => text end.

Definition chunkSize : nat := 1990.
Definition smallerChunkSize : nat := 1000.

(** [`${n}`] for a natural number. *)
Definition showNat (n : nat) : string := NilZero.string_of_uint (Nat.to_uint n).

(** [Math.ceil(length / size)]. *)
Definition ceilDiv (length size : nat) : nat := (length + (size - 1)) / size.

(** [for (let i = 0; i < text.length; i += size)] with
    [text.substring(i, i + size)], which stops at the end of the text.
    The loop runs at most [text.length] times, the fuel given below. *)
Fixpoint chunksFrom (fuel size i : nat) (text : string) : list string :=
  match fuel with
  | 0 => []
  | S fuel' =>
      if i <? String.length text
      then substring i size text :: chunksFrom fuel' size (i + size) text
      else []
  end.

Definition chunks (size : nat) (text : string) : list string :=
  chunksFrom (String.length text) size 0 text.

Definition prefix (chunkIndex totalChunks : nat) : string :=
  if 1 <? totalChunks
  then "[Part " +:+ showNat chunkIndex +:+ "/" +:+ showNat totalChunks +:+ "] "
  else "".

(** The texts that the first loop of [sendMessageSafely] sends. *)
Definition labelled (text : string) : list string :=
  let totalChunks := ceilDiv (String.length text) chunkSize in
  imap (fun k chunk => prefix (S k) totalChunks +:+ chunk) (chunks chunkSize text).

Definition firstChunk (botResponse : string) : string :=
  substring 0 (Nat.min (String.length botResponse) chunkSize) botResponse.

(** [botResponse.substring(chunkSize)]. *)
Definition remainingText (botResponse : string) : string :=
  substring chunkSize (String.length botResponse - chunkSize) botResponse.

Definition continuationNote (botResponse : string) : string :=
  let totalChunks := ceilDiv (String.length botResponse) chunkSize in
  if 0 <? String.length (remainingText botResponse)
  then if 2 <? totalChunks
       then " (continued in " +:+ showNat (totalChunks - 1) +:+ " more messages)"
       else " (continued in next message)"
  else "".

Section Channel.

(** Whether Discord takes a message; a message it does not take makes
    the call raise. *)
Variable accepts : Sent -> bool.

(** One call of [reply] or [send]: the messages of the channel
    afterwards, and whether the call returned. *)
Definition send (m : Sent) (log : list Sent) : list Sent * bool :=
  if accepts m then (log ++ [m], true) else (log, false).

(** Sends in a row, up to the first that raises. *)
Fixpoint sendEach (msgs : list Sent) (log : list Sent) : list Sent * bool :=
  match msgs with
  | [] => (log, true)
  | m :: rest =>
      let '(log', ok) := send m log in
      if ok then sendEach rest log' else (log', false)
  end.

(** [sendMessageSafely]: it never raises; what the first attempt sent
    stays in the channel when the second attempt starts over. *)
Definition sendMessageSafely (text : string) (log : list Sent) : list Sent :=
  let '(log', ok) :=
    if String.length text <=? chunkSize
    then send (Plain text) log
    else sendEach (map Plain (labelled text)) log in
  if ok then log'
  else fst (sendEach (map Plain (chunks smallerChunkSize text)) log').

(** The messages in the channel after the handler has sent the response
    [botResponse] of the server. *)
Definition deliver (botResponse : string) : list Sent :=
  let '(log, ok) :=
    send (Reply (firstChunk botResponse +:+ continuationNote botResponse)) [] in
  if ok
  then if 0 <? String.length (remainingText botResponse)
       then sendMessageSafely (remainingText botResponse) log
       else log
  else sendMessageSafely botResponse log.

End Channel.

(** Discord's limit as the code states it: a message of more than 2000
    characters is refused, any other is taken. *)
Definition withinLimit (m : Sent) : bool := String.length (textOf m) <=? 2000.

(** A text of [n] letters. *)
Definition letters (n : nat) : string := Nat.iter n (String "a") EmptyString.

End Discord.


Import Store Retrieval Update Scenario Spec.

(** ** The stable sort *)

Section SortFacts.
Context {A : Type} (after : A -> A -> bool).

Lemma insertSorted_perm (x : A) (l : list A) :
  Permutation (insertSorted after x l) (x :: l).
Proof.
  induction l as [|y l IH]; simpl; [reflexivity|].
  destruct (after x y); [|reflexivity].
  rewrite IH. apply perm_swap.
Qed.

Lemma sort_perm (l : list A) : Permutation (sort after l) l.
Proof.
  induction l as [|x l IH]; simpl; [reflexivity|].
  rewrite insertSorted_perm. now constructor.
Qed.

Lemma sort_length (l : list A) : length (sort after l) = length l.
Proof. apply Permutation_length, sort_perm. Qed.

Lemma sort_In (x : A) (l : list A) : In x (sort after l) <-> In x l.
Proof.
  split; apply Permutation_in; [|symmetry]; apply sort_perm.
Qed.

End SortFacts.

Lemma take_Sorted {A} (R : A -> A -> Prop) (n : nat) (l : list A) :
  Sorted R l -> Sorted R (take n l).
Proof.
  revert n. induction l as [|x l IH]; intros [|n] H; simpl; try constructor.
  - apply IH. now inversion H.
  - inversion H as [|? ? _ Hd]; subst.
    destruct l as [|y l]; destruct n; simpl; constructor.
    now inversion Hd.
Qed.

Lemma insertSorted_later x l :
  chronologicalAt 0 l -> chronologicalAt 0 (insertSorted later x l).
Proof.
  unfold chronologicalAt.
  induction l as [|y l IH]; intros H; simpl.
  - repeat constructor.
  - unfold later at 1. fold (sortKey x) (sortKey y).
    destruct (Z.ltb_spec (sortKey y) (sortKey x)) as [Hlt|Hge].
    + inversion H as [|? ? Hs Hd]; subst. constructor; [now apply IH|].
      destruct l as [|z l]; simpl.
      * constructor. unfold sortKey in Hlt. lia.
      * unfold later. destruct (Z.ltb_spec (sortKey z) (sortKey x));
          constructor; [now inversion Hd | unfold sortKey in Hlt; lia].
    + constructor; [exact H|]. constructor. unfold sortKey in Hge. lia.
Qed.

Lemma sort_later_chronological l : chronologicalAt 0 (sort later l).
Proof.
  induction l as [|x l IH]; simpl; [constructor|].
  now apply insertSorted_later.
Qed.

(** ** The model on small inputs *)

Example trim_both_ends : Js.trim "  a b  " = "a b".
Proof. reflexivity. Qed.

(** Code unit 201 is a capital E with acute accent, 233 the small one. *)
Example lower_case_latin1 :
  Js.toLowerCase (String (ascii_of_nat 201) "COLE 2") = String (ascii_of_nat 233) "cole 2".
Proof. reflexivity. Qed.

Example mood_of_nothing : Mood.detectMood "" = "neutral".
Proof. vm_compute. reflexivity. Qed.

(** "miss" counts for two categories; the one written first wins. *)
Example mood_tie_goes_to_first : Mood.detectMood "Miss you" = "affectionate".
Proof. vm_compute. reflexivity. Qed.

(** One keyword does not beat the base score of "neutral" unless its
    category comes before; two keywords do. *)
Example mood_two_keywords : Mood.detectMood "so bored, meh" = "bored".
Proof. vm_compute. reflexivity. Qed.

Example preferences_three_categories :
  Signal.extractPreferences
    "We enjoy hiking, my favorite color is blue! I hate mondays"
    "I don't like rain"
  = [("likes", ["hiking"]); ("dislikes", ["mondays"; "rain"]);
     ("favorites", ["color"])].
Proof. vm_compute. reflexivity. Qed.

(** A pattern that matches writes its category even when the captured
    phrase is refused. *)
Example preferences_empty_category :
  Signal.extractPreferences "i like it " "ok" = [("likes", [])].
Proof. vm_compute. reflexivity. Qed.

Example entities_of_capitalized_words :
  Signal.extractEntities "With Anna in Paris, then Paris again. The End"
  = ["Anna"; "Paris"].
Proof. vm_compute. reflexivity. Qed.

Example topics_need_whole_words :
  Signal.extractTopics "my jobs and homework" = ["school"].
Proof. vm_compute. reflexivity. Qed.

Example mention_in_message : Re.matchMention "hey @ you, @mika_7!" = Some "mika_7".
Proof. reflexivity. Qed.

(** ** C4: size and order of the merged working set *)

(** C4, as the code has it: for every history, message, measure and
    clock, the merged working set holds at most 10 turns and is sorted
    in non-decreasing order of timestamp, where a turn without a
    timestamp counts as time 0 (the epoch), the earliest time. *)
Theorem merged_bounded_and_chronological :
  forall measure now message history,
    length (merged measure now message history) <= 10 /\
    chronologicalAt 0 (merged measure now message history).
Proof.
  intros measure now message history. unfold merged, mergeHistory.
  destruct history as [|conv history]; simpl snd.
  - split; [simpl; lia | constructor].
  - split.
    + rewrite length_take. lia.
    + apply take_Sorted, sort_later_chronological.
Qed.

(** C4, the reading of the claim refuted: with the turn of minute one
    followed by a turn that has no timestamp, the merged working set
    puts the turn without timestamp first, which is out of order when
    such a turn counts as the present instant. *)
Lemma missing_timestamp_sorts_first_not_as_now :
  merged noCommonTerm steady "" datedThenUndated = [undated; numbered 0] /\
  ~ chronologicalAt (steady 0) (merged noCommonTerm steady "" datedThenUndated).
Proof.
  assert (E : merged noCommonTerm steady "" datedThenUndated
              = [undated; numbered 0]) by (vm_compute; reflexivity).
  split; [exact E|].
  unfold chronologicalAt. rewrite E. intros H.
  inversion H as [|? ? _ Hd]; subst.
  inversion Hd as [|? ? Hle]; subst.
  vm_compute in Hle. now apply Hle.
Qed.

(** ** C1: the recent turns and the limit of ten *)

(** C1, the code at a history of thirteen turns and a message that
    shares no term with them: the merged working set is the first ten
    turns of the history, so the last three turns, which belong to the
    trailing five, are not in it. *)
Theorem recent_turns_cut_by_limit :
  merged noCommonTerm clock "" (history 13) = take 10 (history 13) /\
  In (numbered 12) (Js.sliceLast 5 (history 13)) /\
  ~ In (numbered 12) (merged noCommonTerm clock "" (history 13)).
Proof.
  assert (E : merged noCommonTerm clock "" (history 13) = take 10 (history 13))
    by (vm_compute; reflexivity).
  split; [exact E|]. split.
  - vm_compute. tauto.
  - rewrite E. vm_compute. intuition discriminate.
Qed.

(** The recent turns stay at the front of the array the loops build, and
    they are all in the merged working set as long as the array has at
    most ten turns; the cut only bites beyond that. *)
Lemma fold_addRelevant_prefix now top m :
  exists added,
    recentHistory (fold_left (addRelevant now) top m) = recentHistory m ++ added.
Proof.
  revert m. induction top as [|conv top IH]; intros m; simpl.
  - exists []. now rewrite app_nil_r.
  - destruct (IH (addRelevant now m conv)) as [added ->].
    unfold addRelevant. destruct (has _ _); simpl.
    + now exists added.
    + exists (conv :: added). now rewrite <- app_assoc.
Qed.

Lemma recentReturned_prefix measure now message history :
  exists added,
    recentReturned measure now message history = Js.sliceLast 5 history ++ added.
Proof.
  unfold recentReturned, mergeHistory.
  destruct history as [|c h]; simpl fst.
  - exists []. reflexivity.
  - apply fold_addRelevant_prefix.
Qed.

Lemma recent_turns_kept_while_room measure now message history conv :
  length (recentReturned measure now message history) <= 10 ->
  In conv (Js.sliceLast 5 history) ->
  In conv (merged measure now message history).
Proof.
  intros Hroom Hin.
  destruct (recentReturned_prefix measure now message history) as [added Hpre].
  unfold merged, recentReturned, mergeHistory in *.
  destruct history as [|c h]; [destruct Hin|].
  simpl fst in *. simpl snd.
  rewrite take_ge by now rewrite sort_length.
  apply sort_In. rewrite Hpre. apply in_app_iff. now left.
Qed.

(** ** C3: identities in the merged working set *)

Lemma stampEqb_eq a b : stampEqb a b = true <-> a = b.
Proof.
  destruct a, b; simpl; rewrite ?Z.eqb_eq; split; congruence.
Qed.

Lemma convIdEqb_eq (a b : ConvId) : convIdEqb a b = true <-> a = b.
Proof.
  destruct a as [m1 s1], b as [m2 s2]. unfold convIdEqb. simpl.
  rewrite andb_true_iff, String.eqb_eq, stampEqb_eq. split.
  - now intros [-> ->].
  - intros [= -> ->]. now split.
Qed.

Lemma has_In included id : has included id = true <-> In id included.
Proof.
  unfold has. rewrite existsb_exists. split.
  - intros [x [Hin Heq]]. apply convIdEqb_eq in Heq. now subst.
  - intros Hin. exists id. split; [exact Hin|]. now apply convIdEqb_eq.
Qed.

Lemma identity_convId t a b : identity a = identity b -> convId t a = convId t b.
Proof.
  unfold identity, convId. now intros [= -> ->].
Qed.

Lemma In_take {A} (x : A) n l : In x (take n l) -> In x l.
Proof.
  revert n; induction l as [|y l IH]; intros [|n]; simpl; try tauto.
  intros [->|H]; [now left | right; eauto].
Qed.

Lemma In_drop {A} (x : A) n l : In x (drop n l) -> In x l.
Proof.
  revert n; induction l as [|y l IH]; intros [|n]; simpl; try tauto.
  intros H; right; eauto.
Qed.

Lemma NoDup_take {A} n (l : list A) : NoDup l -> NoDup (take n l).
Proof. intros H. eapply sublist_NoDup; eauto using sublist_take. Qed.

Lemma similarityScores_conversation measure message history :
  map conversation (similarityScores measure message history) = history.
Proof.
  unfold similarityScores.
  change (map conversation) with (fmap (M:=list) conversation).
  rewrite fmap_imap. simpl.
  generalize (fun idx : nat => measure message history (S idx)) as f.
  induction history as [|x l IH]; intros f; simpl; [reflexivity|].
  f_equal. apply (IH (fun idx => f (S idx))).
Qed.

(** While the history has at most eight turns, every turn is among the
    top-scored ones, whatever the scores. *)
Lemma topRelevant_all measure message history conv :
  length history <= 8 ->
  In conv history -> In conv (topRelevantByScore measure message history).
Proof.
  intros Hlen Hin. unfold topRelevantByScore.
  rewrite take_ge.
  - eapply Permutation_in; [symmetry; apply Permutation_map, sort_perm|].
    now rewrite similarityScores_conversation.
  - rewrite sort_length. unfold similarityScores. now rewrite length_imap.
Qed.

Lemma topRelevant_In measure message history conv :
  In conv (topRelevantByScore measure message history) -> In conv history.
Proof.
  unfold topRelevantByScore. intros H.
  apply in_map_iff in H as [s [<- Hs]].
  apply In_take, sort_In in Hs.
  unfold similarityScores in Hs.
  apply list_elem_of_In, elem_of_lookup_imap in Hs as [i [x [-> Hx]]].
  simpl. apply list_elem_of_In, list_elem_of_lookup. eauto.
Qed.

Section Dedup.

Variable now : nat -> Z.
Variable history : list Turn.

(** Whenever a turn lacks its timestamp, the clock reads the same value
    at every reading. *)
Hypothesis stable : forall conv, In conv history -> timestamp conv = None ->
  forall k k', now k = now k'.

Lemma convId_stable conv k : In conv history -> convId (now k) conv = convId (now 0) conv.
Proof.
  intros Hin. unfold convId.
  destruct (timestamp conv) eqn:E; [reflexivity|].
  now rewrite (stable conv Hin E k 0).
Qed.

Lemma includeRecent_coherent recent :
  (forall conv, In conv recent -> In conv history) ->
  coherent now history (includeRecent now recent).
Proof.
  intros Hsub. unfold coherent, includeRecent; simpl.
  split; [|assumption].
  assert (G : forall (f : nat -> Turn -> ConvId) l,
             (forall k conv, In conv l -> f k conv = convId (now 0) conv) ->
             imap f l = map (convId (now 0)) l).
  { intros f l. revert f. induction l as [|x l IH]; intros f Hf; simpl;
      [reflexivity|].
    rewrite Hf by now left. f_equal.
    apply IH. intros k conv Hin. apply Hf. now right. }
  apply G. intros k conv Hin. apply convId_stable. now apply Hsub.
Qed.

Lemma addRelevant_coherent m conv :
  In conv history -> coherent now history m -> coherent now history (addRelevant now m conv).
Proof.
  intros Hin (Hid & Hsub). unfold addRelevant.
  rewrite convId_stable by assumption.
  destruct (has (includedConversations m) (convId (now 0) conv)) eqn:E;
    unfold coherent; simpl.
  - split; assumption.
  - split.
    + rewrite Hid, map_app. reflexivity.
    + intros c Hc. apply in_app_iff in Hc as [Hc|[<-|[]]]; auto.
Qed.

Lemma addRelevant_distinct m conv :
  In conv history -> coherent now history m -> distinct m -> distinct (addRelevant now m conv).
Proof.
  intros Hin (Hid & Hsub) Hnd. unfold addRelevant, distinct in *.
  rewrite convId_stable by assumption.
  destruct (has (includedConversations m) (convId (now 0) conv)) eqn:E; simpl.
  - exact Hnd.
  - rewrite map_app. simpl. apply NoDup_app. split; [exact Hnd|].
    split; [|apply NoDup_singleton].
    intros i Hi Hi'. apply list_elem_of_singleton in Hi'. subst i.
    apply list_elem_of_In, in_map_iff in Hi as [old [Hold Hin']].
    assert (F : has (includedConversations m) (convId (now 0) conv) = true).
    { apply has_In. rewrite Hid. apply in_map_iff. exists old. split; [|exact Hin'].
      now apply identity_convId. }
    congruence.
Qed.

Lemma fold_addRelevant_coherent top m :
  (forall conv, In conv top -> In conv history) ->
  coherent now history m -> coherent now history (fold_left (addRelevant now) top m).
Proof.
  revert m. induction top as [|conv top IH]; intros m Hsub Hm; simpl; [exact Hm|].
  apply IH; [intros; apply Hsub; now right|].
  apply addRelevant_coherent; [apply Hsub; now left | exact Hm].
Qed.

Lemma fold_addRelevant_distinct top m :
  (forall conv, In conv top -> In conv history) ->
  coherent now history m -> distinct m -> distinct (fold_left (addRelevant now) top m).
Proof.
  revert m. induction top as [|conv top IH]; intros m Hsub Hm Hd; simpl; [exact Hd|].
  assert (In conv history) by (apply Hsub; now left).
  apply IH; [intros; apply Hsub; now right | |].
  - now apply addRelevant_coherent.
  - now apply addRelevant_distinct.
Qed.

Lemma addRelevant_keeps m conv id :
  In id (includedConversations m) ->
  In id (includedConversations (addRelevant now m conv)).
Proof.
  unfold addRelevant. intros H.
  destruct (has _ _); simpl; [exact H|]. apply in_app_iff. now left.
Qed.

Lemma fold_addRelevant_keeps top m id :
  In id (includedConversations m) ->
  In id (includedConversations (fold_left (addRelevant now) top m)).
Proof.
  revert m. induction top as [|c top IH]; intros m H; simpl; [exact H|].
  now apply IH, addRelevant_keeps.
Qed.

(** Every turn the second loop visits has its identifier in the set
    afterwards. *)
Lemma fold_addRelevant_includes top m conv :
  (forall c, In c top -> In c history) ->
  In conv top ->
  In (convId (now 0) conv)
     (includedConversations (fold_left (addRelevant now) top m)).
Proof.
  revert m. induction top as [|c top IH]; intros m Hsub Hin; simpl; [destruct Hin|].
  destruct Hin as [->|Hin].
  - apply (fold_addRelevant_keeps top). unfold addRelevant.
    rewrite (convId_stable conv (made m)) by (apply Hsub; now left).
    destruct (has _ _) eqn:E; simpl.
    + now apply has_In.
    + apply in_app_iff. right. now left.
  - apply IH; [intros; apply Hsub; now right | exact Hin].
Qed.

End Dedup.

(** C3, as the code has it: when the trailing five turns of the history
    hold no two turns with the same (message, timestamp) identity, and
    the clock does not move between readings if some turn lacks its
    timestamp, no two turns of the merged working set share an
    identity.  The code removes from the relevance set what the recency
    set already holds; it does not look for duplicates inside the
    recency set. *)
Theorem merged_identities_distinct :
  forall measure now message history,
    (forall conv, In conv history -> timestamp conv = None ->
                  forall k k', now k = now k') ->
    NoDup (map identity (Js.sliceLast 5 history)) ->
    NoDup (map identity (merged measure now message history)).
Proof.
  intros measure now message history Hstable Hrecent.
  unfold merged, mergeHistory.
  destruct history as [|c0 h0] eqn:Eh; simpl snd; [constructor|].
  rewrite <- Eh in *. clear Eh c0 h0.
  assert (Hnd : distinct
                  (fold_left (addRelevant now)
                             (topRelevantByScore measure message history)
                             (includeRecent now (Js.sliceLast 5 history)))).
  { apply (fold_addRelevant_distinct now history Hstable).
    - intros conv. apply topRelevant_In.
    - apply includeRecent_coherent; [exact Hstable|].
      intros conv. apply In_drop.
    - exact Hrecent. }
  unfold distinct in Hnd.
  change (map identity) with (fmap (M:=list) identity).
  rewrite fmap_take. apply NoDup_take.
  now rewrite (Permutation_map identity (sort_perm later _)).
Qed.

(** The theorem at a history of thirteen distinct turns. *)
Lemma merged_identities_distinct_witness :
  NoDup (map identity (merged noCommonTerm clock "" (history 13))).
Proof.
  apply (merged_identities_distinct noCommonTerm clock "" (history 13)).
  - intros conv Hin Hnone. exfalso. revert Hin Hnone. vm_compute.
    intuition (subst; discriminate).
  - apply (bool_decide_unpack _). vm_compute. reflexivity.
Defined.

(** C3, the claim refuted: a history that stores the same turn twice
    within its trailing five turns; both copies are in the merged
    working set. *)
Lemma twin_recent_turns_both_kept :
  merged noCommonTerm clock "" twins = [numbered 0; numbered 0] /\
  ~ NoDup (map identity (merged noCommonTerm clock "" twins)).
Proof.
  assert (E : merged noCommonTerm clock "" twins = [numbered 0; numbered 0])
    by (vm_compute; reflexivity).
  split; [exact E|]. rewrite E. simpl. intros H.
  inversion H as [|? ? Hnot _]; subst. apply Hnot. constructor.
Qed.

(** When the clock moves between the two loops, a turn without timestamp
    that is both recent and relevant gets two different identifiers and
    is merged twice. *)
Example undated_turn_merged_twice :
  merged noCommonTerm clock "" datedThenUndated = [undated; undated; numbered 0].
Proof. vm_compute. reflexivity. Qed.

(** ** C2: the array returned as [recentHistory] *)

Lemma retrieve_found measure now today flt db uid message userContext :
  findUserFails flt = false -> findGlobalFails flt = false ->
  users db !! uid = Some userContext ->
  retrieveUserContext measure now today flt db uid message
  = Returned (assemble measure now today uid message userContext (globalContext db)).
Proof.
  intros Hu Hg Hlookup.
  unfold retrieveUserContext, retrieveBody, findUser, findGlobal.
  now rewrite Hu, Hg, Hlookup.
Qed.

Lemma assemble_histories measure now today uid message userContext global :
  resultRecentHistory (assemble measure now today uid message userContext global)
  = recentReturned measure now message (conversationHistory userContext) /\
  relevantHistory (assemble measure now today uid message userContext global)
  = merged measure now message (conversationHistory userContext).
Proof.
  unfold assemble, recentReturned, merged.
  destruct (mergeHistory measure now message (conversationHistory userContext)).
  split; reflexivity.
Qed.

(** In a history of at most eight turns that all carry a timestamp, every
    turn has a turn of the same identifier in the array [recentHistory]
    after the loops. *)
Lemma recentReturned_covers measure now message history conv :
  (forall c, In c history -> timestamp c <> None) ->
  length history <= 8 ->
  In conv history ->
  exists c, In c (recentReturned measure now message history) /\
            In c history /\ convId 0 c = convId 0 conv.
Proof.
  intros Hts Hlen Hin.
  assert (Hstable : forall c, In c history -> timestamp c = None ->
                              forall k k', now k = now k')
    by (intros c Hc Hn; now destruct (Hts c Hc)).
  unfold recentReturned, mergeHistory.
  destruct history as [|c0 h0] eqn:Eh; [destruct Hin|].
  rewrite <- Eh in *. clear Eh c0 h0. simpl fst.
  set (top := topRelevantByScore measure message history).
  set (start := includeRecent now (Js.sliceLast 5 history)).
  assert (Hc : coherent now history (fold_left (addRelevant now) top start)).
  { apply fold_addRelevant_coherent; [exact Hstable | |].
    - intros c. apply topRelevant_In.
    - apply includeRecent_coherent; [exact Hstable|].
      intros c. apply In_drop. }
  destruct Hc as [Hid Hsub].
  assert (Hinc : In (convId (now 0) conv)
                    (includedConversations (fold_left (addRelevant now) top start))).
  { apply (fold_addRelevant_includes now history Hstable).
    - intros c. apply topRelevant_In.
    - now apply topRelevant_all. }
  rewrite Hid in Hinc. apply in_map_iff in Hinc as [c [Heq Hc]].
  exists c. split; [exact Hc|]. split; [now apply Hsub|].
  unfold convId in *.
  destruct (timestamp c) eqn:Ec; [|now destruct (Hts c (Hsub c Hc))].
  destruct (timestamp conv) eqn:Econv; [|now destruct (Hts conv Hin)].
  exact Heq.
Qed.

(** C2, the code at a stored history of six turns, for every message,
    measure and clock: the array returned as [recentHistory] holds the
    first turn of the history, which is not one of the last five; the
    second loop pushed it onto the array of recent turns. *)
Theorem recent_history_takes_in_older_turn :
  forall measure now today message,
    exists r,
      retrieveUserContext measure now today noFaults
                          (dbWith "u" (history 6)) "u" message = Returned r /\
      In (numbered 0) (resultRecentHistory r) /\
      ~ In (numbered 0) (Js.sliceLast 5 (history 6)).
Proof.
  intros measure now today message.
  eexists. split.
  - apply retrieve_found; [reflexivity | reflexivity |].
    unfold dbWith; simpl. apply lookup_singleton_eq.
  - split.
    + destruct (assemble_histories measure now today "u" message
                  (profile "u" (history 6))
                  (globalContext (dbWith "u" (history 6)))) as [-> _].
      change (conversationHistory (profile "u" (history 6))) with (history 6).
      destruct (recentReturned_covers measure now message (history 6) (numbered 0))
        as (c & Hc & Hin & Heq).
      * intros c Hc. vm_compute in Hc. intuition (subst; discriminate).
      * vm_compute. lia.
      * vm_compute. tauto.
      * assert (c = numbered 0); [|now subst].
        vm_compute in Hin.
        intuition (subst; try reflexivity; vm_compute in Heq; discriminate).
    + vm_compute. intuition discriminate.
Qed.

(** The same store with the message that shares no term: the array
    returned has six turns, the last five followed by the first. *)
Example recent_history_six_turns :
  recentReturned noCommonTerm clock "" (history 6)
  = Js.sliceLast 5 (history 6) ++ [numbered 0].
Proof. vm_compute. reflexivity. Qed.

(** ** C5: retention *)

Lemma storedHistory_putUser db uid doc :
  storedHistory (putUser db uid doc) uid = Some (conversationHistory doc).
Proof.
  unfold storedHistory, putUser; simpl. now rewrite lookup_insert_eq.
Qed.

Lemma trimmed_length history :
  50 < length history -> length (trimmed history) = 50.
Proof.
  intros H. unfold trimmed, Js.sliceLast.
  rewrite length_app, length_take, length_drop. lia.
Qed.

(** C5, as the code has it: after a write that leaves more than 50
    turns, the stored history is the first 5 turns of the history as it
    was after the write followed by its last 45 turns, 50 turns in all;
    for a history of 51 turns that removes one turn, the sixth, and
    keeps every turn after it. *)
Theorem retention_keeps_first5_last45 :
  forall flt clock db uid name message response updated db',
    updateUserContext flt clock db uid name message response
      = (Returned updated, db') ->
    50 < length (conversationHistory updated) ->
    (exists turn,
        conversationHistory updated
        = conversationHistory (default (newUser uid) (users db !! uid)) ++ [turn]) /\
    storedHistory db' uid
      = Some (take 5 (conversationHistory updated)
              ++ drop (length (conversationHistory updated) - 45)
                      (conversationHistory updated)) /\
    length <$> storedHistory db' uid = Some 50 /\
    (length (conversationHistory updated) = 51 ->
     storedHistory db' uid
       = Some (take 5 (conversationHistory updated)
               ++ drop 6 (conversationHistory updated))).
Proof.
  intros flt clock db uid name message response updated db' Hrun Hlong.
  unfold updateUserContext in Hrun.
  destruct (upsertUserFails flt); [discriminate|].
  set (doc := applyUpdate clock name message response
                (default (newUser uid) (users db !! uid))) in *.
  destruct (50 <? length (conversationHistory doc)) eqn:E.
  - destruct (trimUserFails flt); [discriminate|].
    injection Hrun as <- <-.
    split; [eexists; reflexivity|].
    rewrite storedHistory_putUser. simpl.
    split; [reflexivity|]. split.
    + f_equal. now apply trimmed_length.
    + intros H51. unfold trimmed, Js.sliceLast. now rewrite H51.
  - injection Hrun as <- <-.
    apply Nat.ltb_ge in E. lia.
Qed.

(** The theorem at a profile of fifty turns that receives one more. *)
Lemma retention_keeps_first5_last45_witness :
  storedHistory (snd afterFiftyFirst) "u"
  = Some (take 5 history51 ++ drop 6 history51).
Proof.
  refine (proj2 (proj2 (proj2
    (retention_keeps_first5_last45 noFaults clock (dbWith "u" (history 50))
       "u" "mika" "hello" "hi"
       (applyUpdate clock "mika" "hello" "hi" (profile "u" (history 50)))
       (snd afterFiftyFirst) _ _))) _).
  - vm_compute. reflexivity.
  - vm_compute. lia.
  - vm_compute. reflexivity.
Defined.

(** C5, the claim refuted: from a history of 51 turns the code removes
    one turn, not the six turns after the first five. *)
Lemma fifty_one_turns_lose_one_turn_not_six :
  fst afterFiftyFirst
    = Returned (applyUpdate clock "mika" "hello" "hi" (profile "u" (history 50))) /\
  conversationHistory (applyUpdate clock "mika" "hello" "hi" (profile "u" (history 50)))
    = history51 /\
  length history51 = 51 /\
  storedHistory (snd afterFiftyFirst) "u"
    <> Some (take 5 history51 ++ drop (5 + 6) history51).
Proof.
  split; [vm_compute; reflexivity|].
  split; [vm_compute; reflexivity|].
  split; [vm_compute; reflexivity|].
  intros H. apply (f_equal (fmap length)) in H. vm_compute in H. discriminate.
Qed.

(** ** C6: what [retrieveUserContext] returns *)

(** C6, as the code has it: [retrieveUserContext] returns for every
    store, user and message, whichever store call fails.  When a store
    call fails the result is the minimal one: mood "neutral", both
    histories empty, personality "friendly and helpful".  When no
    profile is stored the result has mood "neutral", both histories
    empty and no personality, and the global profile is not read.  When
    a profile is stored and the global profile is absent the personality
    is the fixed default string. *)
Theorem retrieve_always_returns :
  forall measure now today flt db uid message,
    exists r,
      retrieveUserContext measure now today flt db uid message = Returned r /\
      (findUserFails flt = true \/
       (is_Some (users db !! uid) /\ findGlobalFails flt = true) ->
       infoMood (userInfo r) = "neutral" /\
       relevantHistory r = [] /\ resultRecentHistory r = [] /\
       resultBotPersonality r = Some "friendly and helpful") /\
      (findUserFails flt = false -> users db !! uid = None ->
       infoMood (userInfo r) = "neutral" /\
       relevantHistory r = [] /\ resultRecentHistory r = [] /\
       resultBotPersonality r = None) /\
      (findUserFails flt = false -> findGlobalFails flt = false ->
       is_Some (users db !! uid) -> globalContext db = None ->
       resultBotPersonality r = Some defaultPersonality).
Proof.
  intros measure now today flt db uid message.
  unfold retrieveUserContext, retrieveBody, findUser, findGlobal.
  destruct (findUserFails flt) eqn:Eu.
  { eexists; split; [reflexivity|]. simpl.
    split; [auto|]. split; intros; discriminate. }
  destruct (users db !! uid) as [userContext|] eqn:El.
  - destruct (findGlobalFails flt) eqn:Eg.
    + eexists; split; [reflexivity|]. simpl.
      split; [auto|]. split; intros; discriminate.
    + eexists; split; [reflexivity|].
      split; [intros [?|[_ ?]]; discriminate|].
      split; [intros; discriminate|].
      intros _ _ _ ->. unfold assemble.
      destruct (mergeHistory _ _ _ _). reflexivity.
  - eexists; split; [reflexivity|]. simpl.
    split; [intros [?|[[? ?] _]]; discriminate|].
    split; [auto|].
    intros _ _ [? ?]; discriminate.
Qed.

(** C6, the claim refuted: with no profile stored and no global profile,
    the result carries no personality, neither the fixed default string
    nor the one of the minimal result. *)
Lemma new_profile_result_has_no_personality :
  users emptyDb !! "u" = None /\
  globalContext emptyDb = None /\
  personalityOf (retrieveUserContext noCommonTerm clock 0%Z noFaults emptyDb "u" "hello")
    <> Some defaultPersonality.
Proof.
  split; [reflexivity|]. split; [reflexivity|].
  vm_compute. discriminate.
Qed.

(** The three ways out of [retrieveUserContext] on concrete stores. *)
Example retrieve_when_store_fails :
  retrieveUserContext noCommonTerm clock 0%Z
    {| findUserFails := true; findGlobalFails := false;
       upsertUserFails := false; trimUserFails := false;
       upsertGlobalFails := false |}
    (dbWith "u" (history 3)) "u" "hello"
  = Returned (minimalResult "u").
Proof. reflexivity. Qed.

Example retrieve_when_global_read_fails :
  retrieveUserContext noCommonTerm clock 0%Z
    {| findUserFails := false; findGlobalFails := true;
       upsertUserFails := false; trimUserFails := false;
       upsertGlobalFails := false |}
    (dbWith "u" (history 3)) "u" "hello"
  = Returned (minimalResult "u").
Proof. vm_compute. reflexivity. Qed.

Example retrieve_known_user_without_global :
  personalityOf (retrieveUserContext noCommonTerm clock 0%Z noFaults
                                     (dbWith "u" (history 3)) "u" "hello")
  = Some "toxic, sassy, and slightly unhinged girlfriend AI".
Proof. vm_compute. reflexivity. Qed.

(** ** C7: the stored preferences after an update *)

Lemma storedPreferences_putUser db uid doc :
  storedPreferences (putUser db uid doc) uid = preferences doc.
Proof.
  unfold storedPreferences, putUser; simpl. now rewrite lookup_insert_eq.
Qed.

(** What an accepted update does to the stored preferences, by the test
    the code makes: they are exactly the mapping extracted from the turn
    when that mapping has a category, and are what they were before when
    it has none. *)
Theorem preferences_replaced_or_kept :
  forall flt clock db uid name message response updated db',
    updateUserContext flt clock db uid name message response
      = (Returned updated, db') ->
    (Signal.extractPreferences message response <> [] ->
     storedPreferences db' uid = Some (Signal.extractPreferences message response)) /\
    (Signal.extractPreferences message response = [] ->
     storedPreferences db' uid = storedPreferences db uid).
Proof.
  intros flt clock db uid name message response updated db' Hrun.
  unfold updateUserContext in Hrun.
  destruct (upsertUserFails flt); [discriminate|].
  assert (Hdb : storedPreferences db' uid
                = preferences (applyUpdate clock name message response
                                 (default (newUser uid) (users db !! uid)))).
  { destruct (50 <? _).
    - destruct (trimUserFails flt); [discriminate|].
      injection Hrun as _ <-. now rewrite storedPreferences_putUser.
    - injection Hrun as _ <-. now rewrite storedPreferences_putUser. }
  rewrite Hdb. unfold applyUpdate; simpl.
  split.
  - intros Hne. destruct (Signal.extractPreferences message response);
      [congruence | reflexivity].
  - intros ->. simpl. unfold storedPreferences.
    destruct (users db !! uid); reflexivity.
Qed.

(** The theorem at a profile that likes pizza and dislikes rain and
    receives "i love tea": only the new category is left. *)
Lemma preferences_replaced_or_kept_witness :
  storedPreferences (dbWith "u" (history 2)) "u"
    = Some [("likes", ["pizza"]); ("dislikes", ["rain"])] /\
  storedPreferences (snd afterTea) "u" = Some [("likes", ["tea"])].
Proof.
  split; [reflexivity|].
  refine (proj1
    (preferences_replaced_or_kept noFaults clock (dbWith "u" (history 2))
       "u" "mika" "i love tea" "noted"
       (applyUpdate clock "mika" "i love tea" "noted" (profile "u" (history 2)))
       (snd afterTea) _) _).
  - vm_compute. reflexivity.
  - vm_compute. discriminate.
Defined.

(** A turn whose only match leaves its category empty replaces the
    stored mapping as well; one that matches no pattern leaves it. *)
Example preferences_after_empty_category :
  storedPreferences
    (snd (updateUserContext noFaults clock (dbWith "u" (history 2))
                            "u" "mika" "i like it " "ok")) "u"
  = Some [("likes", [])].
Proof. vm_compute. reflexivity. Qed.

Example preferences_after_plain_turn :
  storedPreferences
    (snd (updateUserContext noFaults clock (dbWith "u" (history 2))
                            "u" "mika" "good morning" "hello")) "u"
  = Some [("likes", ["pizza"]); ("dislikes", ["rain"])].
Proof. vm_compute. reflexivity. Qed.

(** C7, the code at a turn from which no preference is extracted: the
    profile likes pizza and dislikes rain; in "I love it  so much" the
    pattern matches and captures "it ", which is refused once trimmed,
    but the category "likes" has been written already, so the extracted
    mapping is not empty and replaces the stored one: the stored
    preferences are changed although none was extracted. *)
Theorem empty_category_replaces_stored_preferences :
  storedPreferences (dbWith "u" (history 2)) "u"
    = Some [("likes", ["pizza"]); ("dislikes", ["rain"])] /\
  Signal.extractPreferences "I love it  so much" "ok" = [("likes", [])] /\
  storedPreferences (snd afterLoveIt) "u" = Some [("likes", [])] /\
  storedPreferences (snd afterLoveIt) "u"
    <> storedPreferences (dbWith "u" (history 2)) "u".
Proof.
  assert (E : storedPreferences (snd afterLoveIt) "u" = Some [("likes", [])])
    by (vm_compute; reflexivity).
  split; [reflexivity|].
  split; [vm_compute; reflexivity|].
  split; [exact E|].
  rewrite E. vm_compute. discriminate.
Qed.

(** ** C9: the window of global topics *)

Lemma sliceLast_length {A} n (l : list A) : length (Js.sliceLast n l) <= n.
Proof. unfold Js.sliceLast. rewrite length_drop. lia. Qed.

Lemma topicWindow_update flt now db message response :
  topicWindow (updateGlobalContext flt now db message response)
  = if upsertGlobalFails flt then topicWindow db
    else pushTopics (topicWindow db)
                    (Js.uniq [] (Signal.extractTopics message
                                 ++ Signal.extractTopics response)).
Proof.
  unfold updateGlobalContext, topicWindow.
  destruct (upsertGlobalFails flt); [reflexivity|].
  destruct (globalContext db); reflexivity.
Qed.

(** C9: a push leaves at most 25 topics in a window that had at most
    25; and when the store accepts a push of 3 topics onto a window of
    25, the window afterwards is the old one without its 3 oldest
    entries followed by the 3 new topics, 25 entries again. *)
Theorem topic_window_capped :
  forall flt now db message response,
    length (topicWindow db) <= 25 ->
    length (topicWindow (updateGlobalContext flt now db message response)) <= 25 /\
    (upsertGlobalFails flt = false ->
     length (topicWindow db) = 25 ->
     length (Js.uniq [] (Signal.extractTopics message
                         ++ Signal.extractTopics response)) = 3 ->
     topicWindow (updateGlobalContext flt now db message response)
       = drop 3 (topicWindow db)
         ++ Js.uniq [] (Signal.extractTopics message
                        ++ Signal.extractTopics response) /\
     length (topicWindow (updateGlobalContext flt now db message response)) = 25).
Proof.
  intros flt now db message response Hcap.
  rewrite topicWindow_update.
  destruct (upsertGlobalFails flt).
  - split; [exact Hcap | discriminate].
  - split; [apply sliceLast_length|].
    intros _ Hfull Hthree.
    unfold pushTopics, Js.sliceLast.
    rewrite length_app, Hfull, Hthree. simpl.
    rewrite drop_app_le by lia.
    split; [reflexivity|].
    rewrite length_app, length_drop. lia.
Qed.

(** The theorem at a full window that receives a message on three
    topics. *)
Lemma topic_window_capped_witness :
  length fullWindow = 25 /\
  topicWindow afterThreeTopics
    = drop 3 fullWindow ++ ["relationships"; "work"; "school"] /\
  length (topicWindow afterThreeTopics) = 25.
Proof.
  split; [reflexivity|].
  refine (proj2
    (topic_window_capped noFaults (clock 0) (dbTopics fullWindow)
       "i love my job and my school" "" _) _ _ _).
  - vm_compute. lia.
  - reflexivity.
  - vm_compute. reflexivity.
  - vm_compute. reflexivity.
Defined.

(** A push of one topic onto a window of 24 topics: no entry leaves. *)
Example topic_window_room_for_one :
  topicWindow (updateGlobalContext noFaults 0%Z (dbTopics (drop 1 fullWindow))
                                   "my boss called a meeting" "")
  = drop 1 fullWindow ++ ["work"].
Proof. vm_compute. reflexivity. Qed.

(** ** C10: the phrases of extracted preferences *)

Lemma append_length (a b : string) :
  String.length (a +:+ b) = String.length a + String.length b.
Proof. induction a as [|c a IH]; simpl; [reflexivity | now rewrite IH]. Qed.

Lemma trimStart_length s : String.length (Js.trimStart s) <= String.length s.
Proof.
  induction s as [|c s IH]; simpl; [lia|].
  destruct (Js.isSpace c); simpl; lia.
Qed.

Lemma trimEnd_length s : String.length (Js.trimEnd s) <= String.length s.
Proof.
  induction s as [|c s IH]; simpl; [lia|].
  destruct (Js.trimEnd s); [destruct (Js.isSpace c)|]; simpl in *; lia.
Qed.

Lemma trim_length s : String.length (Js.trim s) <= String.length s.
Proof.
  unfold Js.trim.
  pose proof (trimEnd_length (Js.trimStart s)).
  pose proof (trimStart_length s). lia.
Qed.

Lemma arrIncludes_In arr x : Js.arrIncludes arr x = true <-> In x arr.
Proof.
  unfold Js.arrIncludes. rewrite existsb_exists. split.
  - intros [y [Hin Heq]]. apply String.eqb_eq in Heq. now subst.
  - intros Hin. exists x. split; [exact Hin | apply String.eqb_refl].
Qed.

Lemma takeDots_length n s cap r :
  Re.takeDots n s = Some (cap, r) -> String.length cap = n.
Proof.
  revert s cap r. induction n as [|n IH]; intros s cap r; simpl.
  - now intros [= <- _].
  - destruct s as [|c s]; [discriminate|].
    destruct (Js.isLineTerminator c); [discriminate|].
    destruct (Re.takeDots n s) as [[cap' r']|] eqn:E; [|discriminate].
    intros [= <- _]. simpl. f_equal. eauto.
Qed.

Lemma firstAlt_within bound k alts :
  capturesWithin bound k -> capturesWithin bound (Re.firstAlt k alts).
Proof.
  intros Hk. induction alts as [|a alts IH]; intros s caps n; simpl; [discriminate|].
  destruct (Re.dropPrefix a s) as [r|]; [|apply IH].
  destruct (k r) as [[caps' n']|] eqn:E; [|apply IH].
  intros [= <- _]. eapply Hk, E.
Qed.

Lemma lazyMore_within bound k extra cap s caps n :
  capturesWithin bound k ->
  String.length cap + extra <= bound ->
  Re.lazyMore k extra cap s = Some (caps, n) ->
  Forall (fun c => String.length c <= bound) caps.
Proof.
  intros Hk. revert cap s. induction extra as [|e IH]; intros cap s Hlen; simpl.
  - destruct (k s) as [[caps' n']|] eqn:E; [|discriminate].
    intros [= <- _]. constructor; [lia | eapply Hk, E].
  - destruct (k s) as [[caps' n']|] eqn:E.
    + intros [= <- _]. constructor; [lia | eapply Hk, E].
    + destruct s as [|c s]; [discriminate|].
      destruct (Js.isLineTerminator c); [discriminate|].
      apply IH. rewrite append_length. simpl. lia.
Qed.

Lemma matchHere_within bound ps :
  groupsWithin bound ps -> capturesWithin bound (Re.matchHere ps).
Proof.
  induction ps as [|p ps IH]; intros Hps s caps n; simpl.
  - intros [= <- _]. constructor.
  - destruct p as [l|alts|lo hi|]; simpl in Hps.
    + destruct (Re.dropPrefix l s) as [r|]; [|discriminate].
      destruct (Re.matchHere ps r) as [[caps' n']|] eqn:E; [|discriminate].
      simpl. intros [= <- _]. eapply IH; eauto.
    + apply firstAlt_within. now apply IH.
    + destruct Hps as (Hlo & Hhi & Hps).
      destruct (Re.takeDots lo s) as [[cap r]|] eqn:E; [|discriminate].
      apply takeDots_length in E.
      apply lazyMore_within; [now apply IH | lia].
    + destruct s as [|c r].
      * now apply IH.
      * destruct (Re.isStopChar c); [|discriminate].
        destruct (Re.matchHere ps r) as [[caps' n']|] eqn:E; [|discriminate].
        simpl. intros [= <- _]. eapply IH; eauto.
Qed.

Lemma execAll_within bound ps skip s :
  groupsWithin bound ps ->
  Forall (Forall (fun c => String.length c <= bound)) (Re.execAll ps skip s).
Proof.
  intros Hps. revert skip. induction s as [|c s IH]; intros [|k]; simpl;
    try constructor.
  - destruct (Re.matchHere ps EmptyString) as [[caps n]|] eqn:E;
      [|constructor].
    constructor; [eapply matchHere_within; eauto|].
    destruct n; constructor.
  - destruct (Re.matchHere ps (String c s)) as [[caps n]|] eqn:E; [|apply IH].
    constructor; [eapply matchHere_within; eauto|].
    destruct n; [constructor | apply IH].
  - apply IH.
Qed.

Lemma getKey_wellFormed o key v :
  wellFormedPrefs o -> Signal.getKey o key = Some v -> wellFormedPhrases v.
Proof.
  induction o as [|[k w] o IH]; simpl; [discriminate|].
  intros H. inversion H; subst.
  destruct (String.eqb k key); [now intros [= <-] | now apply IH].
Qed.

Lemma setKey_wellFormed o key v :
  wellFormedPrefs o -> wellFormedPhrases v ->
  wellFormedPrefs (Signal.setKey o key v).
Proof.
  intros Ho Hv. induction o as [|[k w] o IH]; simpl.
  - constructor; [exact Hv | constructor].
  - inversion Ho as [|? ? Hw Ho']; subst.
    destruct (String.eqb k key); constructor; simpl; auto.
    now apply IH.
Qed.

Lemma getKey_setKey o key v : Signal.getKey (Signal.setKey o key v) key = Some v.
Proof.
  induction o as [|[k w] o IH]; simpl.
  - now rewrite String.eqb_refl.
  - destruct (String.eqb k key) eqn:E; simpl; now rewrite E.
Qed.

Lemma recordMatch_wellFormed type o caps :
  String.length (nth 0 caps EmptyString) <= 30 ->
  wellFormedPrefs o -> wellFormedPrefs (Signal.recordMatch type o caps).
Proof.
  intros Hcap Ho. unfold Signal.recordMatch.
  set (o1 := match Signal.getKey o type with
             | Some _ => o
             | None => Signal.setKey o type []
             end).
  assert (Ho1 : wellFormedPrefs o1).
  { unfold o1. destruct (Signal.getKey o type); [exact Ho|].
    apply setKey_wellFormed; [exact Ho|]. split; constructor. }
  set (phrase := Js.trim (nth 0 caps EmptyString)).
  destruct (negb (String.eqb phrase EmptyString)
            && (2 <? String.length phrase)
            && negb (Js.arrIncludes (default [] (Signal.getKey o1 type)) phrase))
    eqn:E; [|exact Ho1].
  apply andb_true_iff in E as [E Hnew]. apply andb_true_iff in E as [_ Hlong].
  apply Nat.ltb_lt in Hlong. apply negb_true_iff in Hnew.
  assert (Hcur : wellFormedPhrases (default [] (Signal.getKey o1 type))).
  { destruct (Signal.getKey o1 type) eqn:Eg; simpl.
    - eapply getKey_wellFormed; eauto.
    - split; constructor. }
  apply setKey_wellFormed; [exact Ho1|].
  destruct Hcur as [Hnd Hall]. split.
  - apply NoDup_app. split; [exact Hnd|]. split; [|apply NoDup_singleton].
    intros x Hx Hx'. apply list_elem_of_singleton in Hx'. subst x.
    apply list_elem_of_In, arrIncludes_In in Hx. congruence.
  - apply Forall_app. split; [exact Hall|]. constructor; [|constructor].
    pose proof (trim_length (nth 0 caps EmptyString)). fold phrase in H. lia.
Qed.

Lemma fold_recordMatch_wellFormed type results o :
  Forall (Forall (fun c => String.length c <= 30)) results ->
  wellFormedPrefs o ->
  wellFormedPrefs (fold_left (Signal.recordMatch type) results o).
Proof.
  revert o. induction results as [|caps results IH]; intros o Hres Ho; simpl;
    [exact Ho|].
  inversion Hres as [|? ? Hcaps Hrest]; subst.
  apply IH; [exact Hrest|].
  apply recordMatch_wellFormed; [|exact Ho].
  destruct caps as [|c caps]; simpl; [lia|]. now inversion Hcaps.
Qed.

(** C10: for every message and response, every list of phrases in the
    extracted preferences holds no phrase twice, and each of its phrases
    has between 3 and 30 characters. *)
Theorem extracted_phrases_bounded_and_distinct :
  forall message response,
    Forall (fun kv => wellFormedPhrases (snd kv))
           (Signal.extractPreferences message response).
Proof.
  intros message response. unfold Signal.extractPreferences.
  generalize (Js.toLowerCase (message +:+ " " +:+ response)) as text.
  intros text.
  assert (G : forall patterns o,
             Forall (fun pt => groupsWithin 30 (fst pt)) patterns ->
             wellFormedPrefs o ->
             wellFormedPrefs
               (fold_left (fun preferences '(pattern, type) =>
                             fold_left (Signal.recordMatch type)
                                       (Re.execAll pattern 0 text) preferences)
                          patterns o)).
  { induction patterns as [|[pattern type] patterns IH]; intros o Hp Ho; simpl;
      [exact Ho|].
    inversion Hp as [|? ? Hpat Hrest]; subst.
    apply IH; [exact Hrest|].
    apply fold_recordMatch_wellFormed; [|exact Ho].
    now apply execAll_within. }
  apply G; [|constructor].
  unfold Signal.preferencePatterns.
  repeat constructor; simpl; lia.
Qed.

(** ** C8: the scenario "I love pizza and miss my dog" *)

Lemma phrasesOf_setKey o key v t :
  phrasesOf (Signal.setKey o key v) t
  = if String.eqb key t then v else phrasesOf o t.
Proof.
  unfold phrasesOf. induction o as [|[k w] o IH]; simpl.
  - destruct (String.eqb key t); reflexivity.
  - destruct (String.eqb k key) eqn:Ek; simpl.
    + apply String.eqb_eq in Ek. subst k.
      destruct (String.eqb key t); reflexivity.
    + destruct (String.eqb k t) eqn:Et; simpl.
      * destruct (String.eqb key t) eqn:Ekt; [|reflexivity].
        apply String.eqb_eq in Et, Ekt. subst.
        now rewrite String.eqb_refl in Ek.
      * exact IH.
Qed.

(** A phrase once recorded stays: the loop only appends. *)
Lemma recordMatch_keeps type o caps t p :
  In p (phrasesOf o t) -> In p (phrasesOf (Signal.recordMatch type o caps) t).
Proof.
  intros Hin. unfold Signal.recordMatch.
  set (o1 := match Signal.getKey o type with
             | Some _ => o
             | None => Signal.setKey o type []
             end).
  assert (H1 : In p (phrasesOf o1 t)).
  { unfold o1. destruct (Signal.getKey o type) eqn:Eg; [exact Hin|].
    rewrite phrasesOf_setKey.
    destruct (String.eqb type t) eqn:Et; [|exact Hin].
    apply String.eqb_eq in Et. subst t.
    unfold phrasesOf in Hin. now rewrite Eg in Hin. }
  destruct (_ && _); [|exact H1].
  rewrite phrasesOf_setKey.
  destruct (String.eqb type t) eqn:Et; [|exact H1].
  apply String.eqb_eq in Et. subst t.
  apply in_app_iff. left. exact H1.
Qed.

Lemma fold_recordMatch_keeps type results o t p :
  In p (phrasesOf o t) ->
  In p (phrasesOf (fold_left (Signal.recordMatch type) results o) t).
Proof.
  revert o. induction results as [|caps results IH]; intros o H; simpl; [exact H|].
  now apply IH, recordMatch_keeps.
Qed.

Lemma pizza_first_match response :
  Re.execAll [Signal.who; Re.Lit " ";
              Re.OneOf ["like"; "love"; "enjoy"; "prefer"];
              Re.Lit " "; Re.LazyDots 3 30; Re.Stop] 0
             (Js.toLowerCase ("I love pizza and miss my dog" +:+ " " +:+ response))
  = ["pizza"]
    :: Re.execAll [Signal.who; Re.Lit " ";
                   Re.OneOf ["like"; "love"; "enjoy"; "prefer"];
                   Re.Lit " "; Re.LazyDots 3 30; Re.Stop] 0
                  (Js.toLowerCase response).
Proof. lazy. reflexivity. Qed.

(** C8: on "I love pizza and miss my dog" the mood detected is
    "affectionate"; whatever the response, the phrases extracted under
    "likes" hold "pizza", a phrase that contains "pizza"; and no entity
    is extracted. *)
Theorem pizza_scenario :
  Mood.detectMood "I love pizza and miss my dog" = "affectionate" /\
  (forall response,
      exists phrase,
        In phrase (phrasesOf (Signal.extractPreferences
                                "I love pizza and miss my dog" response) "likes") /\
        Js.includes phrase "pizza" = true) /\
  Signal.extractEntities "I love pizza and miss my dog" = [].
Proof.
  split; [vm_compute; reflexivity|].
  split; [|vm_compute; reflexivity].
  intros response. exists "pizza". split; [|reflexivity].
  unfold Signal.extractPreferences, Signal.preferencePatterns.
  cbn [fold_left].
  rewrite pizza_first_match.
  do 2 apply fold_recordMatch_keeps.
  cbn [fold_left]. apply fold_recordMatch_keeps.
  vm_compute. now left.
Qed.

Example pizza_preferences :
  Signal.extractPreferences "I love pizza and miss my dog" "" = [("likes", ["pizza"])].
Proof. vm_compute. reflexivity. Qed.

(** * Further properties of the code *)

Import Controller Props.

(** ** Updates of a profile *)

Lemma update_accepted flt clock db uid name message response updated db' :
  updateUserContext flt clock db uid name message response
    = (Returned updated, db') ->
  updated = applyUpdate clock name message response
              (default (newUser uid) (users db !! uid)) /\
  exists doc, db' = putUser (putUser db uid updated) uid doc /\
              contextTokens doc = contextTokens updated /\
              conversationHistory doc
              = if 50 <? length (conversationHistory updated)
                then trimmed (conversationHistory updated)
                else conversationHistory updated.
Proof.
  unfold updateUserContext.
  destruct (upsertUserFails flt); [discriminate|].
  remember (applyUpdate clock name message response
              (default (newUser uid) (users db !! uid))) as doc eqn:Hdoc.
  destruct (50 <? length (conversationHistory doc)) eqn:E.
  - destruct (trimUserFails flt); [discriminate|].
    intros [= <- <-]. split; [reflexivity|].
    exists (withHistory doc (trimmed (conversationHistory doc))).
    unfold withHistory; simpl. rewrite E. repeat split; reflexivity.
  - intros [= <- <-]. split; [reflexivity|].
    exists doc. rewrite E. split; [|split; reflexivity].
    unfold putUser; simpl. f_equal. now rewrite insert_insert_eq.
Qed.

(** An update of one user, whatever its outcome, leaves the document of
    every other user and the global profile as they were. *)
Theorem update_touches_one_user :
  forall flt clock db uid name message response other,
    other <> uid ->
    users (snd (updateUserContext flt clock db uid name message response)) !! other
      = users db !! other /\
    globalContext (snd (updateUserContext flt clock db uid name message response))
      = globalContext db.
Proof.
  intros flt clock db uid name message response other Hne.
  unfold updateUserContext.
  destruct (upsertUserFails flt); [split; reflexivity|].
  destruct (50 <? _); [destruct (trimUserFails flt)|]; simpl;
    rewrite ?lookup_insert_ne by congruence; split; reflexivity.
Qed.

(** The theorem at the profile of fifty turns: user "v" has no document
    before and none after the update of "u". *)
Lemma update_touches_one_user_witness :
  users (snd afterFiftyFirst) !! "v" = None /\
  globalContext (snd afterFiftyFirst) = None.
Proof.
  refine (update_touches_one_user noFaults clock (dbWith "u" (history 50))
            "u" "mika" "hello" "hi" "v" _).
  discriminate.
Defined.






(** *** Context tokens *)

Lemma addToSet_In set xs token :
  In token (addToSet set xs) <-> In token set \/ In token xs.
Proof.
  unfold addToSet. revert set. induction xs as [|x xs IH]; intros set; simpl.
  - tauto.
  - rewrite IH. destruct (Js.arrIncludes set x) eqn:E.
    + apply arrIncludes_In in E. split; [tauto|].
      intros [H|[<-|H]]; tauto.
    + rewrite in_app_iff. simpl. tauto.
Qed.

Lemma addToSet_NoDup set xs : NoDup set -> NoDup (addToSet set xs).
Proof.
  unfold addToSet. revert set. induction xs as [|x xs IH]; intros set Hnd; simpl.
  - exact Hnd.
  - apply IH. destruct (Js.arrIncludes set x) eqn:E; [exact Hnd|].
    apply NoDup_app. split; [exact Hnd|]. split; [|apply NoDup_singleton].
    intros y Hy Hy'. apply list_elem_of_singleton in Hy'. subst y.
    apply list_elem_of_In, arrIncludes_In in Hy. congruence.
Qed.

(** After an update that the store accepted, the context tokens of the
    user are the tokens it had together with the entities extracted from
    the message: none is lost, nothing else is added, and tokens that
    were distinct stay distinct. *)
Theorem context_tokens_union :
  forall flt clock db uid name message response updated db',
    updateUserContext flt clock db uid name message response
      = (Returned updated, db') ->
    (forall token,
        In token (tokensOf db' uid)
        <-> In token (tokensOf db uid)
            \/ In token (Signal.extractEntities message)) /\
    (NoDup (tokensOf db uid) -> NoDup (tokensOf db' uid)).
Proof.
  intros flt clock db uid name message response updated db' Hrun.
  destruct (update_accepted _ _ _ _ _ _ _ _ _ Hrun) as [-> (doc & -> & Ht & _)].
  assert (E : tokensOf (putUser (putUser db uid
                 (applyUpdate clock name message response
                    (default (newUser uid) (users db !! uid)))) uid doc) uid
              = if 0 <? length (Signal.extractEntities message)
                then addToSet (tokensOf db uid) (Signal.extractEntities message)
                else tokensOf db uid).
  { unfold tokensOf at 1, putUser; simpl. rewrite lookup_insert_eq. simpl.
    rewrite Ht. reflexivity. }
  rewrite E. clear E Ht Hrun doc.
  generalize (Signal.extractEntities message) as ents. intros [|e es].
  - simpl. split; [intros token; tauto | tauto].
  - change (0 <? length (e :: es)) with true. cbv iota.
    split; [intros token; apply addToSet_In | apply addToSet_NoDup].
Qed.

(** The theorem at a profile that knows "Anna" and "Berlin" and hears of
    "Anna" and "Carla". *)
Lemma context_tokens_union_witness :
  tokensOf (snd (updateUserContext noFaults clock knowsAnna
                                   "u" "mika" "Anna met Carla" "ok")) "u"
  = ["Anna"; "Berlin"; "Carla"] /\
  (forall token,
      In token (tokensOf (snd (updateUserContext noFaults clock knowsAnna
                                 "u" "mika" "Anna met Carla" "ok")) "u")
      <-> In token (tokensOf knowsAnna "u")
          \/ In token (Signal.extractEntities "Anna met Carla")).
Proof.
  split; [vm_compute; reflexivity|].
  refine (proj1 (context_tokens_union noFaults clock knowsAnna
                   "u" "mika" "Anna met Carla" "ok"
                   (applyUpdate clock "mika" "Anna met Carla" "ok"
                      (default (newUser "u") (users knowsAnna !! "u")))
                   (snd (updateUserContext noFaults clock knowsAnna
                           "u" "mika" "Anna met Carla" "ok")) _)).
  vm_compute. reflexivity.
Defined.

(** ** Elapsed time *)

Example time_difference_samples :
  getTimeDifference 0 59999 = "59 seconds" /\
  getTimeDifference 0 60000 = "1 minutes" /\
  getTimeDifference 1000 7201000 = "2 hours" /\
  getTimeDifference 0 172800000 = "2 days" /\
  getTimeDifference 5000 0 = "-5 seconds".
Proof. repeat split; vm_compute; reflexivity. Qed.

(** [getTimeDifference] prints a number and a unit such that the number
    is the elapsed time rounded down to whole units, although it is
    computed by rounding down three times in a row; the unit is seconds
    below one minute (also for a negative difference), minutes below one
    hour, hours below one day, and days from there on. *)
Theorem time_difference_rounds_down :
  forall startDate endDate,
    exists n unit,
      getTimeDifference startDate endDate = showNumber n +:+ " " +:+ unit /\
      (unitMillis unit * n <= endDate - startDate < unitMillis unit * (n + 1))%Z /\
      (unit = "seconds" /\ (endDate - startDate < 60000)%Z \/
       unit = "minutes" /\ (60000 <= endDate - startDate < 3600000)%Z \/
       unit = "hours" /\ (3600000 <= endDate - startDate < 86400000)%Z \/
       unit = "days" /\ (86400000 <= endDate - startDate)%Z).
Proof.
  intros startDate endDate.
  unfold getTimeDifference, timeDifference.
  set (d := (endDate - startDate)%Z).
  destruct (Z.ltb_spec (d / 1000) 60) as [H1|H1].
  { eexists _, _. split; [reflexivity|]. change (unitMillis "seconds") with 1000%Z.
    split; [|left; split; [reflexivity|]]; Z.to_euclidean_division_equations; lia. }
  destruct (Z.ltb_spec (d / 1000 / 60) 60) as [H2|H2].
  { eexists _, _. split; [reflexivity|]. change (unitMillis "minutes") with 60000%Z.
    split; [|right; left; split; [reflexivity|]];
      Z.to_euclidean_division_equations; lia. }
  destruct (Z.ltb_spec (d / 1000 / 60 / 60) 24) as [H3|H3].
  { eexists _, _. split; [reflexivity|]. change (unitMillis "hours") with 3600000%Z.
    split; [|right; right; left; split; [reflexivity|]];
      Z.to_euclidean_division_equations; lia. }
  eexists _, _. split; [reflexivity|]. change (unitMillis "days") with 86400000%Z.
  split; [|right; right; right; split; [reflexivity|]];
    Z.to_euclidean_division_equations; lia.
Qed.

(** ** Topics and the global window *)

Lemma extractTopics_sublist text :
  Signal.extractTopics text `sublist_of` topicNames.
Proof.
  unfold Signal.extractTopics, topicNames.
  destruct text as [|c text]; [apply sublist_nil_l|].
  generalize Signal.topicKeywords as table.
  induction table as [|[topic keywords] table IH]; simpl; [constructor|].
  destruct (_ || _); simpl; [now apply sublist_skip | now apply sublist_cons].
Qed.

(** The topics extracted from a text are topic names of the table, each
    at most once and in the order of the table; so there are at most
    nine. *)
Theorem extracted_topics_are_table_names :
  forall text,
    Signal.extractTopics text `sublist_of` topicNames /\
    NoDup (Signal.extractTopics text) /\
    length (Signal.extractTopics text) <= 9.
Proof.
  intros text. pose proof (extractTopics_sublist text) as H.
  split; [exact H|]. split.
  - eapply sublist_NoDup; [|exact H].
    apply (bool_decide_unpack _). vm_compute. reflexivity.
  - apply sublist_length in H. exact H.
Qed.

Lemma uniq_spec seen arr :
  NoDup (Js.uniq seen arr) /\
  (forall x, In x (Js.uniq seen arr) -> In x arr /\ ~ In x seen).
Proof.
  revert seen. induction arr as [|y arr IH]; intros seen; simpl.
  - split; [constructor | tauto].
  - destruct (Js.arrIncludes seen y) eqn:E.
    + destruct (IH seen) as [Hnd Hin]. split; [exact Hnd|].
      intros x Hx. destruct (Hin x Hx). tauto.
    + destruct (IH (y :: seen)) as [Hnd Hin]. split.
      * constructor; [|exact Hnd].
        intros Hy. apply list_elem_of_In, Hin in Hy. simpl in Hy. tauto.
      * intros x [<-|Hx].
        -- split; [now left|]. intros Hs. apply arrIncludes_In in Hs. congruence.
        -- destruct (Hin x Hx) as [H1 H2]. simpl in H2. tauto.
Qed.

Lemma allTopics_length message response : length (allTopics message response) <= 9.
Proof.
  unfold allTopics.
  destruct (uniq_spec [] (Signal.extractTopics message
                          ++ Signal.extractTopics response)) as [Hnd Hin].
  change 9 with (length topicNames).
  apply submseteq_length, NoDup_submseteq; [exact Hnd|].
  intros x Hx. apply list_elem_of_In, Hin in Hx as [Hx _].
  apply in_app_iff in Hx.
  destruct Hx as [Hx|Hx]; apply list_elem_of_In in Hx;
    eapply elem_of_sublist; eauto using extractTopics_sublist.
Qed.

(** The topics of a push are never evicted by that push: when the store
    accepts it, the window afterwards is a tail of the old window
    followed by all the topics of the message and the response, each
    once. *)
Theorem pushed_topics_stay :
  forall flt now db message response,
    upsertGlobalFails flt = false ->
    exists n,
      topicWindow (updateGlobalContext flt now db message response)
      = drop n (topicWindow db) ++ allTopics message response.
Proof.
  intros flt now db message response Hok.
  rewrite topicWindow_update, Hok.
  fold (allTopics message response).
  pose proof (allTopics_length message response) as Hlen.
  unfold pushTopics, Js.sliceLast. rewrite length_app.
  eexists. apply drop_app_le. lia.
Qed.

(** The theorem at the full window that receives three topics. *)
Lemma pushed_topics_stay_witness :
  exists n,
    topicWindow afterThreeTopics
    = drop n fullWindow ++ allTopics "i love my job and my school" "".
Proof.
  refine (pushed_topics_stay noFaults (clock 0) (dbTopics fullWindow)
            "i love my job and my school" "" _).
  reflexivity.
Defined.

(** ** The merged working set and the stored history *)

Lemma fold_addRelevant_from now history top m :
  (forall conv, In conv top -> In conv history) ->
  (forall conv, In conv (recentHistory m) -> In conv history) ->
  forall conv, In conv (recentHistory (fold_left (addRelevant now) top m)) ->
               In conv history.
Proof.
  revert m. induction top as [|c top IH]; intros m Htop Hm; simpl; [exact Hm|].
  apply IH; [intros; apply Htop; now right|].
  unfold addRelevant. destruct (has _ _); simpl; [exact Hm|].
  intros conv Hc. apply in_app_iff in Hc as [Hc|[<-|[]]]; [now apply Hm|].
  apply Htop. now left.
Qed.

Lemma merged_or_recent_stored :
  forall measure now message history,
    Forall (fun conv => In conv history) (merged measure now message history) /\
    Forall (fun conv => In conv history)
           (recentReturned measure now message history).
Proof.
  intros measure now message history.
  assert (H : forall conv,
             In conv (recentReturned measure now message history) ->
             In conv history).
  { unfold recentReturned, mergeHistory.
    destruct history as [|c h] eqn:Eh; [simpl; tauto|].
    rewrite <- Eh. simpl fst.
    apply fold_addRelevant_from.
    - intros conv. apply topRelevant_In.
    - unfold includeRecent; simpl. intros conv. apply In_drop. }
  split; [|apply List.Forall_forall; exact H].
  apply List.Forall_forall. intros conv Hc. apply H.
  unfold merged, recentReturned, mergeHistory in *.
  destruct history as [|c h]; [destruct Hc|].
  simpl fst. simpl snd in Hc.
  now apply In_take, sort_In in Hc.
Qed.

(** Retrieval invents no turn: every turn of the merged working set and
    of the array returned as [recentHistory] is a turn of the stored
    history, for every measure and clock. *)
Theorem merged_turns_are_stored :
  forall measure now message history,
    Forall (fun conv => In conv history) (merged measure now message history) /\
    Forall (fun conv => In conv history)
           (recentReturned measure now message history).
Proof. exact merged_or_recent_stored. Qed.

(** ** The mood of a message *)

Lemma fold_hits {A} (c : float) (test : A -> bool) (l : list A) (s : float) :
  fold_left (fun (s : float) x => if test x then (s + c)%float else s) l s
  = Nat.iter (hits test l) (fun s => (s + c)%float) s.
Proof.
  revert s. induction l as [|x l IH]; intros s; [reflexivity|].
  cbn [fold_left]. unfold hits. cbn [List.filter].
  destruct (test x).
  - cbn [length]. rewrite Nat.iter_succ_r. apply IH.
  - apply IH.
Qed.

Lemma hits_le {A} (test : A -> bool) l : hits test l <= length l.
Proof.
  unfold hits. induction l as [|x l IH]; simpl; [lia|].
  destruct (test x); simpl; lia.
Qed.

Lemma hits_none {A} (test : A -> bool) l :
  hits test l = 0 <-> forallb (fun x => negb (test x)) l = true.
Proof.
  unfold hits. induction l as [|x l IH]; simpl; [tauto|].
  destruct (test x); simpl; [split; [lia | discriminate] | exact IH].
Qed.

(** The scores that up to nine keywords and nine emojis can give: none
    is below 0, and all but the score of no match are above 0 and not
    below 0.2, the base score of "neutral". *)
Lemma scoreOf_table k e :
  k <= 9 -> e <= 9 ->
  (scoreOf k e <? 0)%float = false /\
  (k <> 0 \/ e <> 0 ->
   (0 <? scoreOf k e)%float = true /\ (scoreOf k e <? 0.2)%float = false).
Proof.
  intros Hk He.
  assert (T : forallb (fun k => forallb (fun e =>
                 negb (scoreOf k e <? 0)%float
                 && ((k =? 0) && (e =? 0)
                     || (0 <? scoreOf k e)%float
                        && negb (scoreOf k e <? 0.2)%float))
                 (seq 0 10)) (seq 0 10) = true)
    by (vm_compute; reflexivity).
  rewrite forallb_forall in T.
  specialize (T k). rewrite forallb_forall in T.
  specialize (T ltac:(apply in_seq; lia) e ltac:(apply in_seq; lia)).
  apply andb_true_iff in T as [T1 T2].
  apply negb_true_iff in T1. split; [exact T1|].
  intros Hne. apply orb_true_iff in T2 as [T2|T2].
  - apply andb_true_iff in T2 as [T2 T3].
    apply Nat.eqb_eq in T2, T3. lia.
  - apply andb_true_iff in T2 as [T2 T3].
    apply negb_true_iff in T3. now split.
Qed.

Lemma scoreCategory_keyed message data :
  keyed data ->
  exists k e,
    k <= 9 /\ e <= 9 /\
    Mood.score (Mood.scoreCategory (Js.toLowerCase message) message data)
      = scoreOf k e /\
    Mood.mood (Mood.scoreCategory (Js.toLowerCase message) message data)
      = Mood.mood data /\
    (silent message data = true <-> k = 0 /\ e = 0).
Proof.
  intros (Hs & _ & Hk & He).
  exists (hits (Js.includes (Js.toLowerCase message)) (Mood.keywords data)),
         (hits (Js.includesUnits (Js.units message)) (Mood.emojis data)).
  split; [pose proof (hits_le (Js.includes (Js.toLowerCase message))
                              (Mood.keywords data)); lia|].
  split; [pose proof (hits_le (Js.includesUnits (Js.units message))
                              (Mood.emojis data)); lia|].
  split; [|split; [reflexivity|]].
  - unfold Mood.scoreCategory; simpl. rewrite !fold_hits, Hs. reflexivity.
  - unfold silent. rewrite andb_true_iff, <- !hits_none. tauto.
Qed.

Lemma higher_matched message data acc :
  keyed data -> matched acc ->
  matched (higher acc (Mood.scoreCategory (Js.toLowerCase message) message data)).
Proof.
  intros Hd Hacc.
  destruct (scoreCategory_keyed message data Hd) as (k & e & Hk & He & Hs & Hm & _).
  unfold higher. rewrite Hs, Hm.
  destruct (fst acc <? scoreOf k e)%float eqn:E; [|exact Hacc].
  destruct Hacc as (_ & k' & e' & Hk' & He' & _ & Hacc).
  destruct Hd as (_ & Hname & _).
  split; [exact Hname|]. exists k, e. simpl.
  repeat split; try assumption.
  destruct k, e; try lia.
  rewrite Hacc in E. change (scoreOf 0 0) with 0%float in E.
  destruct (scoreOf_table k' e' Hk' He') as [Hn _]. congruence.
Qed.

Lemma higher_first message data :
  keyed data ->
  (silent message data = true /\
   higher (0%float, "neutral")
          (Mood.scoreCategory (Js.toLowerCase message) message data)
   = (0%float, "neutral")) \/
  (silent message data = false /\
   matched (higher (0%float, "neutral")
                   (Mood.scoreCategory (Js.toLowerCase message) message data))).
Proof.
  intros Hd.
  destruct (scoreCategory_keyed message data Hd) as (k & e & Hk & He & Hs & Hm & Hsil).
  unfold higher. rewrite Hs, Hm. simpl fst.
  destruct (silent message data) eqn:E.
  - left. split; [reflexivity|].
    destruct Hsil as [Hsil _]. destruct (Hsil eq_refl) as [-> ->].
    reflexivity.
  - right. split; [reflexivity|].
    assert (Hne : k <> 0 \/ e <> 0).
    { destruct k, e; try lia; destruct Hsil as [_ Hsil];
        discriminate (Hsil (conj eq_refl eq_refl)). }
    destruct (scoreOf_table k e Hk He) as [_ Ht].
    destruct (Ht Hne) as [-> _].
    destruct Hd as (_ & Hname & _).
    split; [exact Hname|]. exists k, e. simpl. repeat split; assumption.
Qed.

Lemma fold_higher_matched message cats acc :
  Forall keyed cats -> matched acc ->
  matched (fold_left higher
             (map (Mood.scoreCategory (Js.toLowerCase message) message) cats) acc).
Proof.
  intros Hc. revert acc. induction Hc as [|data cats Hd _ IH]; intros acc Hacc;
    simpl; [exact Hacc|].
  apply IH. now apply higher_matched.
Qed.

Lemma fold_higher_first message cats :
  Forall keyed cats ->
  (forallb (silent message) cats = true /\
   fold_left higher
     (map (Mood.scoreCategory (Js.toLowerCase message) message) cats)
     (0%float, "neutral") = (0%float, "neutral")) \/
  (forallb (silent message) cats = false /\
   matched (fold_left higher
              (map (Mood.scoreCategory (Js.toLowerCase message) message) cats)
              (0%float, "neutral"))).
Proof.
  intros Hc. induction Hc as [|data cats Hd Hc IH]; simpl.
  - left. split; reflexivity.
  - destruct (higher_first message data Hd) as [[Hs ->]|[Hs Hm]]; rewrite Hs; simpl.
    + exact IH.
    + right. split; [reflexivity|]. now apply fold_higher_matched.
Qed.

Lemma higher_neutral_last acc :
  matched acc ->
  snd (higher acc {| Mood.mood := "neutral"; Mood.keywords := [];
                     Mood.emojis := []; Mood.score := 0.2 |}) <> "neutral".
Proof.
  intros (Hname & k & e & Hk & He & Hne & Hacc).
  unfold higher. cbn [Mood.score Mood.mood]. rewrite Hacc.
  destruct (scoreOf_table k e Hk He) as [_ Ht].
  destruct (Ht Hne) as [_ ->]. exact Hname.
Qed.

(** [detectMood] answers "neutral" exactly when no keyword and no emoji
    of any category occurs in the message: one match, of whatever
    category, is enough to outdo the base score of "neutral". *)
Theorem neutral_only_when_nothing_matches :
  forall message,
    Mood.detectMood message = "neutral" <-> nothingMatches message = true.
Proof.
  intros message.
  assert (Hk : Forall keyed (take 6 Mood.moodKeywords)).
  { repeat constructor; simpl; try reflexivity; try lia; discriminate. }
  assert (Hsplit : Mood.moodKeywords
                   = take 6 Mood.moodKeywords
                     ++ [ {| Mood.mood := "neutral"; Mood.keywords := [];
                             Mood.emojis := []; Mood.score := 0.2 |} ])
    by reflexivity.
  unfold Mood.detectMood, nothingMatches, Mood.pickHighest.
  change (fun (acc : float * string) (data : Mood.Category) =>
            if (fst acc <? Mood.score data)%float
            then (Mood.score data, Mood.mood data) else acc) with higher.
  rewrite Hsplit at 1 2. rewrite map_app, fold_left_app, forallb_app.
  cbn [map fold_left forallb].
  change (silent message {| Mood.mood := "neutral"; Mood.keywords := [];
                            Mood.emojis := []; Mood.score := 0.2 |}) with true.
  rewrite !andb_true_r.
  change (Mood.scoreCategory (Js.toLowerCase message) message
            {| Mood.mood := "neutral"; Mood.keywords := [];
               Mood.emojis := []; Mood.score := 0.2 |})
    with {| Mood.mood := "neutral"; Mood.keywords := [];
            Mood.emojis := []; Mood.score := 0.2 |}.
  destruct (fold_higher_first message (take 6 Mood.moodKeywords) Hk)
    as [[Hs ->]|[Hs Hm]]; rewrite Hs.
  - split; reflexivity.
  - split; [|discriminate].
    intros Hn. exfalso. exact (higher_neutral_last _ Hm Hn).
Qed.

Example mood_single_match_beats_neutral :
  nothingMatches "what a dull day" = false /\
  Mood.detectMood "what a dull day" = "bored" /\
  nothingMatches "see you at nine" = true /\
  Mood.detectMood "see you at nine" = "neutral".
Proof. repeat split; vm_compute; reflexivity. Qed.

(** ** Entities *)

Lemma allWordChars_snoc word c :
  allWordChars (word +:+ String c EmptyString)
  = allWordChars word && Js.isWordChar c.
Proof.
  induction word as [|d word IH]; simpl.
  - now rewrite andb_true_r.
  - rewrite IH. now rewrite andb_assoc.
Qed.

Lemma tokenizeFrom_words word s :
  allWordChars word = true ->
  Forall (fun w => allWordChars w = true) (Signal.tokenizeFrom word s).
Proof.
  revert word. induction s as [|c s IH]; intros word Hw; simpl.
  - destruct word; repeat constructor. exact Hw.
  - destruct (Js.isWordChar c) eqn:E.
    + apply IH. rewrite allWordChars_snoc, Hw, E. reflexivity.
    + destruct word; [apply IH; reflexivity|].
      constructor; [exact Hw | apply IH; reflexivity].
Qed.

Lemma capital_word_char c :
  Js.isWordChar c = true -> Js.lowerMoves c = true ->
  Js.between 65 90 (Js.unit c) = true.
Proof.
  destruct c as [[] [] [] [] [] [] [] []]; vm_compute; intros; congruence.
Qed.

(** Every entity extracted from a text is a word of letters, digits and
    underscores, at least four characters long, beginning with a capital
    letter A-Z and not among the common capitalized words; and no entity
    is returned twice. *)
Theorem extracted_entities_are_capitalized_words :
  forall text,
    NoDup (Signal.extractEntities text) /\
    Forall entityLike (Signal.extractEntities text).
Proof.
  intros text. unfold Signal.extractEntities.
  match goal with
  | |- NoDup (Js.uniq [] ?l) /\ _ => destruct (uniq_spec [] l) as [Hnd Hin]
  end.
  split; [exact Hnd|].
  apply List.Forall_forall. intros w Hw.
  apply Hin in Hw as [Hw _].
  apply list_elem_of_In, list_elem_of_filter in Hw as [Hpot Htok].
  apply Is_true_true in Hpot. apply list_elem_of_In in Htok.
  assert (Hchars : allWordChars w = true).
  { pose proof (tokenizeFrom_words EmptyString text eq_refl) as Hall.
    rewrite List.Forall_forall in Hall. now apply Hall. }
  unfold Signal.isPotentialEntity in Hpot.
  apply andb_true_iff in Hpot as [Hpot Hcommon].
  apply andb_true_iff in Hpot as [Hlen Hfirst].
  apply Nat.ltb_lt in Hlen. apply negb_true_iff in Hcommon.
  repeat split.
  - lia.
  - destruct w as [|c w]; [discriminate|]. simpl in *.
    apply andb_true_iff in Hfirst as [_ Hlow].
    apply andb_true_iff in Hchars as [Hc _].
    now apply capital_word_char.
  - exact Hchars.
  - intros Habs. apply arrIncludes_In in Habs. congruence.
Qed.

(** ** The keys of extracted preferences *)

Lemma setKey_keys o key v :
  map fst (Signal.setKey o key v)
  = if Js.arrIncludes (map fst o) key then map fst o else map fst o ++ [key].
Proof.
  induction o as [|[k w] o IH]; simpl; [reflexivity|].
  unfold Js.arrIncludes in *. simpl.
  rewrite (String.eqb_sym key k).
  destruct (String.eqb k key); simpl; [reflexivity|].
  rewrite IH. destruct (existsb (String.eqb key) (map fst o)); reflexivity.
Qed.

Lemma setKey_categoriesOnly o key v :
  In key categoryNames -> categoriesOnly o ->
  categoriesOnly (Signal.setKey o key v).
Proof.
  intros Hkey [Hnd Hin]. unfold categoriesOnly. rewrite setKey_keys.
  destruct (Js.arrIncludes (map fst o) key) eqn:E; [now split|].
  split.
  - apply NoDup_app. split; [exact Hnd|]. split; [|apply NoDup_singleton].
    intros x Hx Hx'. apply list_elem_of_singleton in Hx'. subst x.
    apply list_elem_of_In, arrIncludes_In in Hx. congruence.
  - intros k Hk. apply in_app_iff in Hk as [Hk|[<-|[]]]; auto.
Qed.

Lemma recordMatch_categoriesOnly type o caps :
  In type categoryNames -> categoriesOnly o ->
  categoriesOnly (Signal.recordMatch type o caps).
Proof.
  intros Ht Ho. unfold Signal.recordMatch.
  set (o1 := match Signal.getKey o type with
             | Some _ => o
             | None => Signal.setKey o type []
             end).
  assert (Ho1 : categoriesOnly o1).
  { unfold o1. destruct (Signal.getKey o type); [exact Ho|].
    now apply setKey_categoriesOnly. }
  destruct (_ && _); [now apply setKey_categoriesOnly | exact Ho1].
Qed.

(** The preferences extracted from any message and response have no
    other keys than "likes", "dislikes" and "favorites", each at most
    once. *)
Theorem extracted_preferences_have_category_keys :
  forall message response,
    categoriesOnly (Signal.extractPreferences message response).
Proof.
  intros message response. unfold Signal.extractPreferences.
  generalize (Js.toLowerCase (message +:+ " " +:+ response)) as text.
  intros text.
  assert (G : forall patterns o,
             Forall (fun pt => In (snd pt) categoryNames) patterns ->
             categoriesOnly o ->
             categoriesOnly
               (fold_left (fun preferences '(pattern, type) =>
                             fold_left (Signal.recordMatch type)
                                       (Re.execAll pattern 0 text) preferences)
                          patterns o)).
  { induction patterns as [|[pattern type] patterns IH]; intros o Hp Ho; simpl;
      [exact Ho|].
    inversion Hp as [|? ? Hpat Hrest]; subst. simpl in Hpat.
    apply IH; [exact Hrest|].
    generalize (Re.execAll pattern 0 text) as results.
    clear - Hpat Ho. intros results. revert o Ho.
    induction results as [|caps results IHr]; intros o Ho; simpl; [exact Ho|].
    apply IHr. now apply recordMatch_categoriesOnly. }
  apply G.
  - unfold Signal.preferencePatterns, categoryNames.
    repeat constructor; simpl; tauto.
  - split; [constructor | intros key []].
Qed.

(** ** Short histories and the recency guarantee *)

Lemma fold_addRelevant_known now history top m :
  steadyFor now history ->
  coherent now history m ->
  (forall conv, In conv top -> In conv (recentHistory m)) ->
  recentHistory (fold_left (addRelevant now) top m) = recentHistory m.
Proof.
  intros Hst. revert m. induction top as [|c top IH]; intros m Hm Htop; simpl;
    [reflexivity|].
  assert (Hc : In c (recentHistory m)) by (apply Htop; now left).
  assert (Hstep : addRelevant now m c
                  = {| recentHistory := recentHistory m;
                       includedConversations := includedConversations m;
                       made := S (made m) |}).
  { unfold addRelevant.
    destruct (has (includedConversations m) (convId (now (made m)) c)) eqn:E;
      [reflexivity|].
    destruct Hm as [Hid Hsub].
    assert (F : has (includedConversations m) (convId (now (made m)) c) = true).
    { apply has_In. rewrite Hid.
      rewrite (convId_stable now history Hst c (made m)) by now apply Hsub.
      now apply in_map. }
    congruence. }
  rewrite Hstep, IH; [reflexivity | exact Hm |].
  simpl. intros conv Hconv. apply Htop. now right.
Qed.

(** With at most five stored turns (and a clock that stands still if a
    turn lacks its timestamp) retrieval returns the whole history: the
    array returned as [recentHistory] is the history, nothing is pushed
    onto it, and the merged working set is the history in the stable
    order of its timestamps, whatever the scores. *)
Theorem short_history_returned_whole :
  forall measure now message history,
    length history <= 5 ->
    steadyFor now history ->
    recentReturned measure now message history = history /\
    merged measure now message history = sort later history.
Proof.
  intros measure now message history Hlen Hst.
  assert (Hrecent : Js.sliceLast 5 history = history).
  { unfold Js.sliceLast. replace (length history - 5) with 0 by lia. reflexivity. }
  unfold recentReturned, merged, mergeHistory. rewrite Hrecent.
  destruct history as [|c h] eqn:Eh; [split; reflexivity|].
  rewrite <- Eh in *. simpl fst; simpl snd.
  rewrite (fold_addRelevant_known now history); simpl.
  - split; [reflexivity|]. apply take_ge. rewrite sort_length. lia.
  - exact Hst.
  - apply includeRecent_coherent; [exact Hst | tauto].
  - intros conv. apply topRelevant_In.
Qed.

(** The theorem at a history of three dated turns followed by an undated
    one, under a clock that stands still. *)
Lemma short_history_returned_whole_witness :
  recentReturned noCommonTerm steady "" (history 3 ++ [undated])
    = history 3 ++ [undated] /\
  merged noCommonTerm steady "" (history 3 ++ [undated])
    = undated :: history 3.
Proof.
  refine (short_history_returned_whole noCommonTerm steady ""
            (history 3 ++ [undated]) _ _).
  - vm_compute. lia.
  - intros conv _ _ k k'. reflexivity.
Defined.

Lemma identities_length (l history : list Turn) :
  NoDup (map identity l) ->
  (forall conv, In conv l -> In conv history) ->
  length l <= length history.
Proof.
  intros Hnd Hsub.
  rewrite <- (length_map identity l), <- (length_map identity history).
  apply submseteq_length, NoDup_submseteq; [exact Hnd|].
  intros x Hx. apply list_elem_of_In, in_map_iff in Hx as [conv [<- Hc]].
  apply list_elem_of_In, in_map. now apply Hsub.
Qed.

(** The recency guarantee for histories that fit: when the stored
    history has at most ten turns, no two of them with the same
    (message, timestamp) identity (and the clock stands still if a turn
    lacks its timestamp), every one of the last five turns is in the
    merged working set. *)
Theorem recent_turns_kept_in_small_history :
  forall measure now message history,
    length history <= 10 ->
    NoDup (map identity history) ->
    steadyFor now history ->
    Forall (fun conv => In conv (merged measure now message history))
           (Js.sliceLast 5 history).
Proof.
  intros measure now message history Hlen Hnd Hst.
  apply List.Forall_forall. intros conv Hconv.
  apply recent_turns_kept_while_room; [|exact Hconv].
  etransitivity; [|exact Hlen].
  apply identities_length.
  - unfold recentReturned, mergeHistory.
    destruct history as [|c h] eqn:Eh; [constructor|].
    rewrite <- Eh in *. simpl fst.
    apply (fold_addRelevant_distinct now history Hst).
    + intros c0. apply topRelevant_In.
    + apply includeRecent_coherent; [exact Hst|]. intros c0. apply In_drop.
    + unfold distinct, includeRecent; simpl.
      change (map identity) with (fmap (M:=list) identity).
      unfold Js.sliceLast. rewrite fmap_drop.
      eapply sublist_NoDup; [|apply sublist_drop]. exact Hnd.
  - intros c0 Hc0.
    destruct (merged_or_recent_stored measure now message history) as [_ H].
    rewrite List.Forall_forall in H. now apply H.
Qed.

(** The theorem at a history of ten distinct turns. *)
Lemma recent_turns_kept_in_small_history_witness :
  Forall (fun conv => In conv (merged noCommonTerm clock "" (history 10)))
         (Js.sliceLast 5 (history 10)).
Proof.
  refine (recent_turns_kept_in_small_history noCommonTerm clock ""
            (history 10) _ _ _).
  - vm_compute. lia.
  - apply (bool_decide_unpack _). vm_compute. reflexivity.
  - intros conv Hin Hnone. exfalso. revert Hin Hnone. vm_compute.
    intuition (subst; discriminate).
Defined.
(** ** The Discord bot *)

Import Discord.

Lemma append_cons c (a b : string) : String c a +:+ b = String c (a +:+ b).
Proof. reflexivity. Qed.

Lemma append_empty_r (a : string) : a +:+ "" = a.
Proof. induction a as [|c a IH]; [reflexivity|]. now rewrite append_cons, IH. Qed.

Lemma length_append (a b : string) :
  String.length (a +:+ b) = String.length a + String.length b.
Proof.
  induction a as [|c a IH]; [reflexivity|].
  rewrite append_cons. simpl. now rewrite IH.
Qed.

Lemma length_substring (n m : nat) (s : string) :
  String.length (substring n m s) = Nat.min m (String.length s - n).
Proof.
  revert n m. induction s as [|c s IH]; intros [|n] [|m]; simpl;
    try reflexivity; rewrite IH; simpl; lia.
Qed.

Lemma substring_all (s : string) n :
  String.length s <= n -> substring 0 n s = s.
Proof.
  revert n. induction s as [|c s IH]; intros [|n] H; simpl in *;
    try reflexivity; try lia.
  f_equal. apply IH. lia.
Qed.

Lemma substring_clamp (s : string) i a b :
  Nat.min a (String.length s - i) = Nat.min b (String.length s - i) ->
  substring i a s = substring i b s.
Proof.
  revert i a b. induction s as [|c s IH]; intros i a b H.
  - destruct i, a, b; reflexivity.
  - destruct i as [|i].
    + destruct a, b; simpl in *; try reflexivity; try lia.
      f_equal. apply IH. rewrite !Nat.sub_0_r in *. lia.
    + simpl. apply IH. simpl in H. exact H.
Qed.

Lemma substring_none (s : string) i : substring i 0 s = EmptyString.
Proof. revert i. induction s as [|c s IH]; intros [|i]; simpl; auto. Qed.

Lemma substring_split (s : string) i n m :
  substring i n s +:+ substring (i + n) m s = substring i (n + m) s.
Proof.
  revert i n m. induction s as [|c s IH]; intros i n m.
  - destruct i, n, m; reflexivity.
  - destruct i as [|i].
    + destruct n as [|n]; simpl.
      * reflexivity.
      * rewrite append_cons. f_equal. apply (IH 0).
    + simpl. apply IH.
Qed.

Lemma concat_cons (x : string) xs :
  String.concat "" (x :: xs) = x +:+ String.concat "" xs.
Proof. destruct xs; simpl; [now rewrite append_empty_r | reflexivity]. Qed.

Lemma chunksFrom_rebuild size text :
  0 < size ->
  forall fuel i,
    String.length text - i <= fuel ->
    String.concat "" (chunksFrom fuel size i text)
    = substring i (String.length text - i) text.
Proof.
  intros Hsize. induction fuel as [|fuel IH]; intros i Hfuel.
  - cbn [chunksFrom concat]. symmetry.
    rewrite (substring_clamp text i _ 0) by lia.
    apply substring_none.
  - cbn [chunksFrom]. destruct (Nat.ltb_spec i (String.length text)) as [Hi|Hi].
    + rewrite concat_cons, IH by lia. rewrite substring_split.
      apply substring_clamp. lia.
    + cbn [concat]. symmetry.
      rewrite (substring_clamp text i _ 0) by lia.
      apply substring_none.
Qed.

Lemma chunksFrom_bounded size text fuel i :
  Forall (fun chunk => String.length chunk <= size) (chunksFrom fuel size i text).
Proof.
  revert i. induction fuel as [|fuel IH]; intros i; cbn [chunksFrom];
    [constructor|].
  destruct (i <? String.length text); constructor; [|apply IH].
  rewrite length_substring. lia.
Qed.

Lemma chunksFrom_nonempty size text fuel i :
  0 < size ->
  Forall (fun chunk => chunk <> EmptyString) (chunksFrom fuel size i text).
Proof.
  intros Hsize. revert i. induction fuel as [|fuel IH]; intros i;
    cbn [chunksFrom]; [constructor|].
  destruct (Nat.ltb_spec i (String.length text)); constructor; [|apply IH].
  intros Habs. apply (f_equal String.length) in Habs.
  rewrite length_substring in Habs. simpl in Habs. lia.
Qed.

(** The loops of [sendMessageSafely] lose and repeat nothing: the parts
    cut with size 1990 and the parts cut with size 1000 are non-empty,
    no longer than their size and, put together in order, the text. *)
Theorem chunks_rebuild_text :
  forall text,
    String.concat "" (chunks chunkSize text) = text /\
    String.concat "" (chunks smallerChunkSize text) = text /\
    Forall (fun chunk => chunk <> EmptyString /\ String.length chunk <= 1990)
           (chunks chunkSize text) /\
    Forall (fun chunk => chunk <> EmptyString /\ String.length chunk <= 1000)
           (chunks smallerChunkSize text).
Proof.
  intros text.
  assert (R : forall size, 0 < size -> String.concat "" (chunks size text) = text).
  { intros size Hsize. unfold chunks.
    rewrite (chunksFrom_rebuild size text Hsize) by lia.
    rewrite Nat.sub_0_r. now apply substring_all. }
  assert (B : forall size, 0 < size ->
              Forall (fun chunk => chunk <> EmptyString /\ String.length chunk <= size)
                     (chunks size text)).
  { intros size Hsize. apply Forall_and.
    split; [now apply chunksFrom_nonempty | apply chunksFrom_bounded]. }
  unfold chunkSize, smallerChunkSize.
  repeat split; try (apply R; lia); apply B; lia.
Qed.

Lemma sendEach_accepted accepts msgs log :
  Forall (fun m => accepts m = true) msgs ->
  sendEach accepts msgs log = (log ++ msgs, true).
Proof.
  revert log. induction msgs as [|m msgs IH]; intros log H; simpl.
  - now rewrite app_nil_r.
  - inversion H as [|? ? Hm Hrest]; subst. unfold send. rewrite Hm.
    rewrite IH by exact Hrest. now rewrite <- app_assoc.
Qed.

Lemma showNat_length n : 1 <= String.length (showNat n).
Proof.
  unfold showNat. destruct (Nat.to_uint n); simpl; lia.
Qed.

Lemma note_length botResponse :
  chunkSize < String.length botResponse ->
  11 <= String.length (continuationNote botResponse).
Proof.
  intros Hlong. unfold continuationNote.
  assert (Hrem : String.length (remainingText botResponse)
                 = String.length botResponse - chunkSize).
  { unfold remainingText. rewrite length_substring. lia. }
  rewrite Hrem.
  destruct (Nat.ltb_spec 0 (String.length botResponse - chunkSize)); [|lia].
  destruct (2 <? _).
  - rewrite !length_append. simpl. lia.
  - simpl. lia.
Qed.

Lemma prefix_length k total : 1 < total -> 11 <= String.length (prefix k total).
Proof.
  intros H. unfold prefix.
  destruct (Nat.ltb_spec 1 total); [|lia].
  rewrite !length_append.
  pose proof (showNat_length k). pose proof (showNat_length total).
  simpl. lia.
Qed.

(** A response of more than 1990 characters, on a channel that refuses
    every message of more than 2000 characters and takes every plain
    message of at most 1000: the reply (1990 characters and the
    continuation note) is refused, the first labelled part (the label
    and 1990 characters) is refused too, and what reaches the channel is
    the response cut into plain parts of 1000 characters, with no reply,
    no continuation note and no part label. *)
Theorem long_response_sent_unlabelled :
  forall accepts botResponse,
    (forall m, 2000 < String.length (textOf m) -> accepts m = false) ->
    (forall text, String.length text <= 1000 -> accepts (Plain text) = true) ->
    1990 < String.length botResponse ->
    deliver accepts botResponse = map Plain (chunks smallerChunkSize botResponse).
Proof.
  intros accepts botResponse Hover Hsmall Hlong.
  unfold deliver, send.
  rewrite Hover.
  2:{ simpl. rewrite length_append. unfold firstChunk.
      rewrite length_substring.
      pose proof (note_length botResponse Hlong). unfold chunkSize in *. lia. }
  unfold sendMessageSafely.
  destruct (Nat.leb_spec (String.length botResponse) chunkSize) as [Hle|_];
    [unfold chunkSize in Hle; lia|].
  assert (Hfirst : sendEach accepts (map Plain (labelled botResponse)) [] = ([], false)).
  { unfold labelled.
    set (total := ceilDiv (String.length botResponse) chunkSize).
    assert (Htotal : 1 < total).
    { unfold total, ceilDiv, chunkSize.
      apply (Nat.div_le_lower_bound _ 1990 2); lia. }
    clearbody total. unfold chunks.
    destruct (String.length botResponse) as [|n] eqn:El; [lia|].
    cbn [chunksFrom]. rewrite El. cbn [Nat.ltb Nat.leb imap map sendEach].
    unfold send. rewrite Hover; [reflexivity|].
    simpl textOf. rewrite length_append, length_substring, El.
    pose proof (prefix_length 1 _ Htotal). unfold chunkSize in *. lia. }
  rewrite Hfirst.
  rewrite sendEach_accepted; [reflexivity|].
  apply Forall_map. unfold chunks.
  eapply Forall_impl; [apply (chunksFrom_bounded smallerChunkSize)|].
  intros chunk Hc. apply Hsmall. exact Hc.
Qed.

(** The theorem at a response of 1991 letters under Discord's limit. *)
Lemma long_response_sent_unlabelled_witness :
  deliver withinLimit (letters 1991)
  = map Plain (chunks smallerChunkSize (letters 1991)).
Proof.
  refine (long_response_sent_unlabelled withinLimit (letters 1991) _ _ _).
  - intros m H. unfold withinLimit. apply Nat.leb_gt. exact H.
  - intros text H. unfold withinLimit. apply Nat.leb_le. simpl. lia.
  - vm_compute. lia.
Defined.

(** A response of at most 1990 characters that the channel takes is
    sent once, as the reply, unchanged and with no note. *)
Theorem short_response_is_one_reply :
  forall accepts botResponse,
    String.length botResponse <= 1990 ->
    accepts (Reply botResponse) = true ->
    deliver accepts botResponse = [Reply botResponse].
Proof.
  intros accepts botResponse Hshort Hacc.
  assert (Hrem : String.length (remainingText botResponse) = 0).
  { unfold remainingText. rewrite length_substring. unfold chunkSize. lia. }
  unfold deliver, send, continuationNote. rewrite Hrem.
  change (0 <? 0) with false. cbv iota.
  rewrite append_empty_r. unfold firstChunk, chunkSize.
  rewrite substring_all by lia. rewrite Hacc. reflexivity.
Qed.

Lemma short_response_is_one_reply_witness :
  deliver withinLimit "hello" = [Reply "hello"].
Proof.
  refine (short_response_is_one_reply withinLimit "hello" _ _).
  - vm_compute. lia.
  - reflexivity.
Defined.
